(** * A shallow embedding of package hibp (go-hibp, hibp/range.go)

    The Pwned Passwords range lookup: [Find] hex-encodes a SHA1 sum, sends
    the first five hex digits upstream through [fetchPrefix], scans the
    returned body line by line with a [bufio.Scanner] ([findSuffix]) and
    parses the matching line ([parseCount], [strconv.ParseInt]).

    Text ([]byte of ASCII, Go strings) is [string]; the SHA1 sum is a
    [list byte]; int64 and uint64 values are [Z] with their wrap-around
    written out.  The single outbound effect, [f.conn.Get(url)], is a node
    of a small free monad [prog]; [fmt.Sprintf(f.tmpl, prefix)] is a
    parameter of the development ([Sprintf]), since fmt is not part of
    this repository. *)

From Stdlib Require Import ZArith List Lia Bool.
From Stdlib Require Import Strings.String Strings.Ascii Strings.Byte.
Import ListNotations.
Open Scope string_scope.

(** ** Errors *)

(** Kind of a [*strconv.NumError]. *)
Inductive numkind : Type :=
| NumSyntax   (* strconv.ErrSyntax *)
| NumRange.   (* strconv.ErrRange *)

Inductive error : Type :=
| ErrShortBuffer                    (* io.ErrShortBuffer *)
| ErrShortWrite                     (* io.ErrShortWrite *)
| ErrGet (msg : string)             (* error of f.conn.Get or of reading the body *)
| ErrStatus (status : string)       (* fmt.Errorf(resp.Status) *)
| ErrTooLong                        (* bufio.ErrTooLong *)
| ErrParse (line : string)          (* fmt.Errorf("%s: %s", errMsgFormat, line) *)
| ErrNum (num : string) (k : numkind). (* &strconv.NumError{"ParseInt", num, k} *)

(** A Go pair [(T, error)] whose error is nil or not. *)
Inductive result (A : Type) : Type :=
| Ok (a : A)
| Err (e : error).
Arguments Ok {A} a.
Arguments Err {A} e.

(** ** Strings as byte slices *)

Fixpoint str_take (n : nat) (s : string) : string :=
  match n, s with
  | O, _ => EmptyString
  | S n', String c s' => String c (str_take n' s')
  | S _, EmptyString => EmptyString
  end.

Fixpoint str_drop (n : nat) (s : string) : string :=
  match n, s with
  | O, _ => s
  | S n', String _ s' => str_drop n' s'
  | S _, EmptyString => EmptyString
  end.

(** bytes.HasPrefix(s, prefix) *)
Fixpoint HasPrefix (s prefix : string) {struct prefix} : bool :=
  match prefix, s with
  | EmptyString, _ => true
  | String p prefix', String c s' => Ascii.eqb p c && HasPrefix s' prefix'
  | String _ _, EmptyString => false
  end.

(** bytes.Split(s, sep) for a one-byte separator: Count(s, sep)+1 pieces. *)
Fixpoint Split (s : string) (sep : ascii) : list string :=
  match s with
  | EmptyString => [EmptyString]
  | String c s' =>
      if Ascii.eqb c sep then EmptyString :: Split s' sep
      else match Split s' sep with
           | p :: ps => String c p :: ps
           | [] => [String c EmptyString]
           end
  end.

(** bytes.Count(s, sep) for a one-byte separator; genSplit sizes the result
    of bytes.Split with it. *)
Fixpoint Count (s : string) (sep : ascii) : nat :=
  match s with
  | EmptyString => 0
  | String c s' => (if Ascii.eqb c sep then 1 else 0) + Count s' sep
  end.

(** ** fmt.Sprintf("%X", sum) *)

Definition hex_digit (n : nat) : ascii :=
  if Nat.ltb n 10 then ascii_of_nat (48 + n) else ascii_of_nat (55 + n).

Fixpoint hexUpper (sum : list byte) : string :=
  match sum with
  | [] => EmptyString
  | b :: bs =>
      String (hex_digit (Byte.to_nat b / 16))
        (String (hex_digit (Byte.to_nat b mod 16)) (hexUpper bs))
  end.

(** ** strconv.ParseUint(s, 10, 64) and strconv.ParseInt(s, 10, 64) *)

Definition maxUint64 : Z := 2 ^ 64 - 1.
(** cutoff = maxUint64/10 + 1: the smallest n with n*10 > maxUint64. *)
Definition cutoff10 : Z := maxUint64 / 10 + 1.
(** maxVal = 1<<64 - 1 for bitSize 64. *)
Definition maxVal : Z := maxUint64.

Definition wrap_uint64 (z : Z) : Z := z mod 2 ^ 64.
Definition wrap_int64 (z : Z) : Z := (z + 2 ^ 63) mod 2 ^ 64 - 2 ^ 63.

(** lower(c) = c | ('x' - 'X') *)
Definition lower (c : ascii) : N := N.lor (N_of_ascii c) 32.

(** The digit value the loop of ParseUint assigns to a byte. *)
Definition digit_value (c : ascii) : option Z :=
  let n := N_of_ascii c in
  if ((48 <=? n) && (n <=? 57))%N then Some (Z.of_N n - 48)%Z
  else if ((97 <=? lower c) && (lower c <=? 122))%N
       then Some (Z.of_N (lower c) - 97 + 10)%Z
  else None.

Fixpoint parseUint_loop (n : Z) (s : string) : Z * option numkind :=
  match s with
  | EmptyString => (n, None)
  | String c s' =>
      match digit_value c with
      | None => (0%Z, Some NumSyntax)
      | Some d =>
          if (10 <=? d)%Z then (0%Z, Some NumSyntax)
          else if (cutoff10 <=? n)%Z then (maxVal, Some NumRange)
          else
            let n := (n * 10)%Z in
            let n1 := wrap_uint64 (n + d) in
            if (n1 <? n)%Z || (maxVal <? n1)%Z then (maxVal, Some NumRange)
            else parseUint_loop n1 s'
      end
  end.

Definition ParseUint (s : string) : Z * option numkind :=
  match s with
  | EmptyString => (0%Z, Some NumSyntax)
  | _ => parseUint_loop 0 s
  end.

Definition ParseInt (s0 : string) : Z * option error :=
  match s0 with
  | EmptyString => (0%Z, Some (ErrNum s0 NumSyntax))
  | String c rest =>
      let '(neg, s) :=
        if Ascii.eqb c "+"%char then (false, rest)
        else if Ascii.eqb c "-"%char then (true, rest)
        else (false, s0) in
      let '(un, err) := ParseUint s in
      match err with
      | Some NumSyntax => (0%Z, Some (ErrNum s0 NumSyntax))
      | _ =>
          let cutoff := (2 ^ 63)%Z in
          if negb neg && (cutoff <=? un)%Z then ((cutoff - 1)%Z, Some (ErrNum s0 NumRange))
          else if neg && (cutoff <? un)%Z then ((- cutoff)%Z, Some (ErrNum s0 NumRange))
          else
            let n := wrap_int64 un in
            let n := if neg then wrap_int64 (- n) else n in
            (n, None)
      end
  end.

(** ** bufio.Scanner with bufio.ScanLines over a bytes.Reader *)

(** bufio.MaxScanTokenSize: the largest buffer the scanner grows to. *)
Definition MaxScanTokenSize : nat := 64 * 1024.

(** The raw lines ScanLines cuts the input into: the pieces between
    newlines, without a trailing empty piece at end of input. *)
Definition raw_lines (content : string) : list string :=
  let ps := Split content "010"%char in
  match rev ps with
  | EmptyString :: rest => rev rest
  | _ => ps
  end.

(** dropCR: a trailing \r is removed from each token. *)
Definition dropCR (data : string) : string :=
  match rev (list_ascii_of_string data) with
  | "013"%char :: rest => string_of_list_ascii (rev rest)
  | _ => data
  end.

(** A raw line that does not fit in the scanner's largest buffer (its
    bytes and the newline, or its bytes and end of input, need more than
    MaxScanTokenSize bytes) stops Scan with bufio.ErrTooLong. *)
Definition too_long (r : string) : bool :=
  Nat.leb MaxScanTokenSize (String.length r).

(** The loop of findSuffix over the raw lines still to be scanned. *)
Fixpoint scan_suffix (suffix : string) (lines : list string) : result string :=
  match lines with
  | [] => Ok EmptyString                       (* return nil, scanner.Err() *)
  | r :: rest =>
      if too_long r then Err ErrTooLong
      else
        let b := dropCR r in
        if HasPrefix b suffix then Ok b else scan_suffix suffix rest
  end.

Definition findSuffix (suffix content : string) : result string :=
  scan_suffix suffix (raw_lines content).

(** ** parseCount *)

Definition delim : ascii := ":"%char.
Definition errMsgFormat : string := "hibp: problem parsing results".

Definition parseCount (line : string) : Z * option error :=
  match Split line delim with
  | [_; p1] => ParseInt p1
  | _ => (0%Z, Some (ErrParse line))
  end.

(** ** The Finder and its options *)

(** A *http.Client: the shared http.DefaultClient or some other client. *)
Inductive client : Type :=
| DefaultClient
| OtherClient (id : nat).

Record Finder : Type := mkFinder { tmpl : string; conn : client }.

Definition prefixSize : nat := 5.
Definition sha1_Size : nat := 20.
Definition DefaultTemplate : string := "https://api.pwnedpasswords.com/range/%s".

Definition WithURLTemplate (template : string) : Finder -> Finder :=
  fun f => mkFinder template (conn f).

Definition WithClient (c : client) : Finder -> Finder :=
  fun f => mkFinder (tmpl f) c.

Definition NewFinder (options : list (Finder -> Finder)) : Finder :=
  fold_left (fun f opt => opt f) options (mkFinder DefaultTemplate DefaultClient).

(** ** The outbound effect *)

(** What f.conn.Get(url) and ioutil.ReadAll(resp.Body) deliver. *)
Inductive get_outcome : Type :=
| GetFailed (msg : string)
| Response (statusCode : Z) (status : string) (body : string)
           (read_err : option string).

(** Programs issuing f.conn.Get requests. *)
Inductive prog (A : Type) : Type :=
| Ret (a : A)
| Get (c : client) (url : string) (k : get_outcome -> prog A).
Arguments Ret {A} a.
Arguments Get {A} c url k.

Fixpoint bind {A B} (p : prog A) (f : A -> prog B) : prog B :=
  match p with
  | Ret a => f a
  | Get c u k => Get c u (fun o => bind (k o) f)
  end.

(** Running a program against a network: [net c url] answers a request. *)
Fixpoint run {A} (net : client -> string -> get_outcome) (p : prog A) : A :=
  match p with
  | Ret a => a
  | Get c u k => run net (k (net c u))
  end.

(** The requests a program sends, in order. *)
Fixpoint requests {A} (net : client -> string -> get_outcome) (p : prog A)
  : list (client * string) :=
  match p with
  | Ret _ => []
  | Get c u k => (c, u) :: requests net (k (net c u))
  end.

Section Lookup.

(** fmt.Sprintf(f.tmpl, prefix) *)
Variable Sprintf : string -> string -> string.

(** The tail of fetchPrefix after f.conn.Get returns. *)
Definition check_response (o : get_outcome) : result string :=
  match o with
  | GetFailed msg => Err (ErrGet msg)
  | Response code st body rerr =>
      if negb (Z.eqb code 200) then Err (ErrStatus st)
      else match rerr with
           | Some msg => Err (ErrGet msg)
           | None => Ok body
           end
  end.

Definition fetchPrefix (f : Finder) (prefix : string) : prog (result string) :=
  Get (conn f) (Sprintf (tmpl f) prefix) (fun o => Ret (check_response o)).

Definition Find (f : Finder) (sum : list byte) : prog (Z * option error) :=
  if Nat.ltb (List.length sum) sha1_Size then Ret (0%Z, Some ErrShortBuffer)
  else if Nat.ltb sha1_Size (List.length sum) then Ret (0%Z, Some ErrShortWrite)
  else
    let full := hexUpper sum in
    bind (fetchPrefix f (str_take prefixSize full)) (fun r =>
      match r with
      | Err e => Ret (0%Z, Some e)
      | Ok body =>
          match findSuffix (str_drop prefixSize full) body with
          | Err e => Ret (0%Z, Some e)
          | Ok line =>
              if Nat.eqb (String.length line) 0 then Ret (0%Z, None)
              else Ret (parseCount line)
          end
      end).

End Lookup.

(** ** The count field as the specification reads it *)

(** A decimal digit '0'..'9' and its value. *)
Definition dec_digit (c : ascii) : option Z :=
  let n := N_of_ascii c in
  if ((48 <=? n) && (n <=? 57))%N then Some (Z.of_N n - 48)%Z else None.

(** The value of a string of decimal digits read after the value [n]. *)
Fixpoint decimal_from (n : Z) (s : string) : option Z :=
  match s with
  | EmptyString => Some n
  | String c s' =>
      match dec_digit c with
      | Some d => decimal_from (n * 10 + d)%Z s'
      | None => None
      end
  end.

(** "a base-10 integer (64-bit signed range)": an optional sign, at least
    one decimal digit, and a value in [-2^63, 2^63 - 1]. *)
Definition decimal_int64 (s : string) : option Z :=
  let '(sg, ds) :=
    match s with
    | String c r =>
        if Ascii.eqb c "+"%char then (1%Z, r)
        else if Ascii.eqb c "-"%char then ((-1)%Z, r)
        else (1%Z, s)
    | EmptyString => (1%Z, s)
    end in
  match ds with
  | EmptyString => None
  | _ =>
      match decimal_from 0 ds with
      | Some u =>
          let v := (sg * u)%Z in
          if ((- 2 ^ 63 <=? v) && (v <=? 2 ^ 63 - 1))%Z then Some v else None
      | None => None
      end
  end.

(** ** Concrete inputs, after range_test.go *)

(** fmt.Sprintf for a template whose only verb is one %s. *)
Fixpoint sprintf_s (template arg : string) : string :=
  match template with
  | String "%"%char (String "s"%char rest) => arg ++ rest
  | String c rest => String c (sprintf_s rest arg)
  | EmptyString => EmptyString
  end.

(** A server answering every request with status 200 and [body]. *)
Definition served (body : string) : client -> string -> get_outcome :=
  fun _ _ => Response 200 "200 OK" body None.

(** A server answering every request with status 429. *)
Definition throttled : client -> string -> get_outcome :=
  fun _ _ => Response 429 "429 Too Many Requests" EmptyString None.

(** The SHA1 sum of twenty zero bytes; its suffix is 35 zeros. *)
Definition sum0 : list byte := repeat x00 20.
Definition suffix0 : string := "00000000000000000000000000000000000".

(** A line that the scanner cannot hold. *)
Definition long_line : string :=
  string_of_list_ascii (repeat "x"%char MaxScanTokenSize).

(** ** The count as the range API writes it *)

(** The decimal text of a non-negative count, most significant digit first,
    without leading zeros; [fuel] bounds the number of digits. *)
Fixpoint decimal_aux (fuel : nat) (n : Z) (acc : string) : string :=
  if (n <? 10)%Z then String (ascii_of_nat (48 + Z.to_nat n)) acc
  else match fuel with
       | O => acc
       | S k => decimal_aux k (n / 10)%Z
                  (String (ascii_of_nat (48 + Z.to_nat (n mod 10))) acc)
       end.

(** Nineteen digits hold every int64 count. *)
Definition decimal_string (n : Z) : string := decimal_aux 19 n EmptyString.

(** ** Facts about the digit loop of strconv *)

Lemma dec_digit_range c d :
  dec_digit c = Some d -> digit_value c = Some d /\ (0 <= d < 10)%Z.
Proof.
  unfold dec_digit, digit_value.
  destruct ((48 <=? N_of_ascii c) && (N_of_ascii c <=? 57))%N eqn:E; [|discriminate].
  intros H; inversion H; subst. apply andb_true_iff in E as [E1 E2].
  apply N.leb_le in E1. apply N.leb_le in E2. split; [reflexivity | lia].
Qed.

Lemma dec_digit_none c :
  dec_digit c = None ->
  digit_value c = None \/ exists d, digit_value c = Some d /\ (10 <= d)%Z.
Proof.
  unfold dec_digit, digit_value.
  destruct ((48 <=? N_of_ascii c) && (N_of_ascii c <=? 57))%N; [discriminate|].
  intros _.
  destruct ((97 <=? lower c) && (lower c <=? 122))%N eqn:E; [right | left; reflexivity].
  apply andb_true_iff in E as [E1 _]. apply N.leb_le in E1.
  eexists; split; [reflexivity | lia].
Qed.

Lemma decimal_from_mono s : forall n u,
  (0 <= n)%Z -> decimal_from n s = Some u -> (n <= u)%Z.
Proof.
  induction s as [|c s IH]; simpl; intros n u Hn H.
  - inversion H; lia.
  - destruct (dec_digit c) as [d|] eqn:D; [|discriminate].
    apply dec_digit_range in D as [_ D].
    specialize (IH (n * 10 + d)%Z u ltac:(lia) H). lia.
Qed.

Lemma pow2_64 : (2 ^ 64 = 18446744073709551616)%Z.
Proof. reflexivity. Qed.

Lemma pow2_63 : (2 ^ 63 = 9223372036854775808)%Z.
Proof. reflexivity. Qed.

Lemma maxVal_val : maxVal = 18446744073709551615%Z.
Proof. reflexivity. Qed.

Lemma cutoff10_val : cutoff10 = 1844674407370955162%Z.
Proof. reflexivity. Qed.

Lemma wrap_uint64_small x : (0 <= x < 2 ^ 64)%Z -> wrap_uint64 x = x.
Proof. intros; unfold wrap_uint64; apply Z.mod_small; lia. Qed.

Lemma wrap_uint64_big x :
  (2 ^ 64 <= x < 2 * 2 ^ 64)%Z -> wrap_uint64 x = (x - 2 ^ 64)%Z.
Proof.
  intros H; unfold wrap_uint64.
  replace x with ((x - 2 ^ 64) + 1 * 2 ^ 64)%Z at 1 by lia.
  rewrite Z.mod_add by lia. apply Z.mod_small; lia.
Qed.

(** One step of the loop on a decimal digit, when it does not overflow. *)
Lemma parseUint_loop_digit c s n d :
  dec_digit c = Some d -> (0 <= n < cutoff10)%Z -> (n * 10 + d <= maxVal)%Z ->
  parseUint_loop n (String c s) = parseUint_loop (n * 10 + d) s.
Proof.
  intros D Hn Hm. apply dec_digit_range in D as [D Hd].
  rewrite cutoff10_val in Hn; rewrite maxVal_val in Hm.
  simpl; rewrite D.
  replace (10 <=? d)%Z with false by (symmetry; apply Z.leb_gt; lia).
  rewrite cutoff10_val.
  replace (1844674407370955162 <=? n)%Z with false by (symmetry; apply Z.leb_gt; lia).
  rewrite wrap_uint64_small by (rewrite pow2_64; lia).
  rewrite maxVal_val.
  replace (n * 10 + d <? n * 10)%Z with false by (symmetry; apply Z.ltb_ge; lia).
  replace (18446744073709551615 <? n * 10 + d)%Z with false
    by (symmetry; apply Z.ltb_ge; lia).
  reflexivity.
Qed.

(** A step that overflows stops the loop with ErrRange. *)
Lemma parseUint_loop_overflow c s n d :
  dec_digit c = Some d -> (0 <= n)%Z -> (maxVal < n * 10 + d)%Z ->
  parseUint_loop n (String c s) = (maxVal, Some NumRange).
Proof.
  intros D Hn Hm. apply dec_digit_range in D as [D Hd].
  rewrite maxVal_val in Hm.
  simpl; rewrite D.
  replace (10 <=? d)%Z with false by (symmetry; apply Z.leb_gt; lia).
  rewrite cutoff10_val.
  destruct (Z.leb_spec 1844674407370955162 n) as [Hc|Hc]; [reflexivity|].
  rewrite wrap_uint64_big by (rewrite pow2_64; lia).
  rewrite pow2_64.
  replace (n * 10 + d - 18446744073709551616 <? n * 10)%Z with true
    by (symmetry; apply Z.ltb_lt; lia).
  reflexivity.
Qed.

Lemma parseUint_loop_ok s : forall n u,
  (0 <= n <= maxVal)%Z ->
  parseUint_loop n (s) = (u, None) <-> decimal_from n s = Some u /\ (u <= maxVal)%Z.
Proof.
  induction s as [|c s IH]; intros n u Hn.
  - simpl. split.
    + intros H; inversion H; subst; split; [reflexivity | lia].
    + intros [H1 H2]; inversion H1; subst; reflexivity.
  - destruct (dec_digit c) as [d|] eqn:D.
    + pose proof (dec_digit_range _ _ D) as [_ Hd].
      simpl decimal_from; rewrite D.
      destruct (Z.le_gt_cases (n * 10 + d) maxVal) as [Hm|Hm].
      * assert (Hc : (n < cutoff10)%Z)
          by (rewrite cutoff10_val; rewrite maxVal_val in Hm; lia).
        rewrite (parseUint_loop_digit c s n d D ltac:(lia) Hm).
        apply IH; lia.
      * rewrite (parseUint_loop_overflow c s n d D ltac:(lia) Hm).
        split; [intros H; inversion H|].
        intros [H1 H2]. apply decimal_from_mono in H1; lia.
    + simpl; rewrite D.
      destruct (dec_digit_none c D) as [E | [d [E Hd]]]; rewrite E.
      * split; [intros H; inversion H | intros [H _]; discriminate].
      * replace (10 <=? d)%Z with true by (symmetry; apply Z.leb_le; lia).
        split; [intros H; inversion H | intros [H _]; discriminate].
Qed.

Lemma parseUint_loop_syntax s : forall n u,
  (0 <= n <= maxVal)%Z ->
  parseUint_loop n s = (u, Some NumSyntax) -> decimal_from n s = None.
Proof.
  induction s as [|c s IH]; intros n u Hn H; [discriminate|].
  simpl decimal_from.
  destruct (dec_digit c) as [d|] eqn:D; [|reflexivity].
  pose proof (dec_digit_range _ _ D) as [_ Hd].
  destruct (Z.le_gt_cases (n * 10 + d) maxVal) as [Hm|Hm].
  - assert (Hc : (n < cutoff10)%Z)
      by (rewrite cutoff10_val; rewrite maxVal_val in Hm; lia).
    rewrite (parseUint_loop_digit c s n d D ltac:(lia) Hm) in H.
    apply (IH _ u); [lia | exact H].
  - rewrite (parseUint_loop_overflow c s n d D ltac:(lia) Hm) in H. discriminate.
Qed.

Lemma parseUint_loop_range s : forall n u,
  (0 <= n <= maxVal)%Z ->
  parseUint_loop n s = (u, Some NumRange) ->
  u = maxVal /\
  (decimal_from n s = None \/ exists w, decimal_from n s = Some w /\ (maxVal < w)%Z).
Proof.
  induction s as [|c s IH]; intros n u Hn H; [discriminate|].
  simpl decimal_from.
  destruct (dec_digit c) as [d|] eqn:D.
  - pose proof (dec_digit_range _ _ D) as [_ Hd].
    destruct (Z.le_gt_cases (n * 10 + d) maxVal) as [Hm|Hm].
    + assert (Hc : (n < cutoff10)%Z)
        by (rewrite cutoff10_val; rewrite maxVal_val in Hm; lia).
      rewrite (parseUint_loop_digit c s n d D ltac:(lia) Hm) in H.
      apply (IH _ u); [lia | exact H].
    + rewrite (parseUint_loop_overflow c s n d D ltac:(lia) Hm) in H.
      inversion H; subst; split; [reflexivity|].
      destruct (decimal_from (n * 10 + d) s) as [w|] eqn:W; [right | left; reflexivity].
      exists w; split; [reflexivity|].
      apply decimal_from_mono in W; lia.
  - simpl in H.
    destruct (dec_digit_none c D) as [E | [d [E Hd]]]; rewrite E in H.
    + discriminate.
    + replace (10 <=? d)%Z with true in H by (symmetry; apply Z.leb_le; lia).
      discriminate.
Qed.

Lemma wrap_int64_id z : (- 2 ^ 63 <= z < 2 ^ 63)%Z -> wrap_int64 z = z.
Proof.
  intros H; unfold wrap_int64.
  rewrite Z.mod_small; [lia|]. rewrite pow2_64; rewrite pow2_63 in *; lia.
Qed.

(** Case analysis on the comparisons of a goal, closing the absurd cases. *)
Ltac zcases :=
  repeat match goal with
         | |- context [Z.leb ?a ?b] => destruct (Z.leb_spec a b)
         | |- context [Z.ltb ?a ?b] => destruct (Z.ltb_spec a b)
         end;
  cbn [negb andb]; try discriminate; try lia; try (split; discriminate).

(** The ParseInt tail once the sign has been picked off. *)
Lemma ParseInt_tail_ok (neg : bool) ds s0 v :
  (let '(un, err) := ParseUint ds in
   match err with
   | Some NumSyntax => (0%Z, Some (ErrNum s0 NumSyntax))
   | _ =>
       let cutoff := (2 ^ 63)%Z in
       if negb neg && (cutoff <=? un)%Z then ((cutoff - 1)%Z, Some (ErrNum s0 NumRange))
       else if neg && (cutoff <? un)%Z then ((- cutoff)%Z, Some (ErrNum s0 NumRange))
       else
         let n := wrap_int64 un in
         let n := if neg then wrap_int64 (- n) else n in
         (n, None)
   end) = (v, None) <->
  match ds with
  | EmptyString => None
  | _ =>
      match decimal_from 0 ds with
      | Some u =>
          let v := ((if neg then (-1)%Z else 1%Z) * u)%Z in
          if ((- 2 ^ 63 <=? v) && (v <=? 2 ^ 63 - 1))%Z then Some v else None
      | None => None
      end
  end = Some v.
Proof.
  assert (Hm : (0 <= 0 <= maxVal)%Z) by (rewrite maxVal_val; lia).
  destruct ds as [|c r]; [simpl; split; discriminate|].
  unfold ParseUint.
  destruct (parseUint_loop 0 (String c r)) as [un err] eqn:E.
  destruct err as [[|]|].
  - apply parseUint_loop_syntax in E; [|exact Hm]. rewrite E.
    split; discriminate.
  - apply parseUint_loop_range in E as [Eu Ed]; [|exact Hm]. subst un.
    rewrite maxVal_val in *.
    split; [destruct neg; simpl; discriminate|].
    destruct Ed as [Ed | [w [Ed Hw]]]; rewrite Ed; [discriminate|].
    destruct neg; cbn zeta; zcases.
  - apply parseUint_loop_ok in E as [Ed Hu]; [|exact Hm].
    rewrite Ed. pose proof (decimal_from_mono _ 0 un ltac:(lia) Ed) as H0.
    rewrite maxVal_val in Hu.
    destruct neg; cbn zeta.
    + destruct (Z.le_gt_cases un (2 ^ 63)) as [Hc|Hc].
      * assert (Hw : wrap_int64 (- wrap_int64 un) = (- un)%Z).
        { destruct (Z.eq_dec un (2 ^ 63)) as [Heq|Hne].
          - subst un. reflexivity.
          - rewrite (wrap_int64_id un) by lia. apply wrap_int64_id; lia. }
        rewrite Hw. zcases;
          rewrite ?Z.mul_1_l; try replace (-1 * un)%Z with (- un)%Z by lia;
          split; intros Hq; congruence.
      * zcases.
    + destruct (Z.lt_ge_cases un (2 ^ 63)) as [Hc|Hc].
      * rewrite (wrap_int64_id un) by lia. zcases;
          rewrite ?Z.mul_1_l; try replace (-1 * un)%Z with (- un)%Z by lia;
          split; intros Hq; congruence.
      * zcases.
Qed.

(** strconv.ParseInt(s, 10, 64) succeeds exactly on the decimal int64 texts. *)
Lemma ParseInt_ok s v : ParseInt s = (v, None) <-> decimal_int64 s = Some v.
Proof.
  destruct s as [|c rest]; [simpl; split; discriminate|].
  unfold ParseInt, decimal_int64.
  destruct (Ascii.eqb c "+"%char); [apply ParseInt_tail_ok with (neg := false)|].
  destruct (Ascii.eqb c "-"%char); [apply ParseInt_tail_ok with (neg := true)|].
  apply ParseInt_tail_ok with (neg := false).
Qed.

(** ** bytes.Split and bytes.HasPrefix *)

Lemma Split_app_sep a b sep :
  Split a sep = [a] -> Split (a ++ String sep b) sep = a :: Split b sep.
Proof.
  induction a as [|c a IH]; simpl; intros H.
  - rewrite Ascii.eqb_refl. reflexivity.
  - destruct (Ascii.eqb c sep); [inversion H|].
    assert (Ha : Split a sep = [a]).
    { destruct (Split a sep) as [|p ps] eqn:E.
      - inversion H; subst. discriminate E.
      - inversion H; subst. reflexivity. }
    rewrite (IH Ha). reflexivity.
Qed.

Lemma Split_single_drop n a sep :
  Split a sep = [a] -> Split (str_drop n a) sep = [str_drop n a].
Proof.
  revert a; induction n as [|n IH]; intros a H; [exact H|].
  destruct a as [|c a]; [reflexivity|]. simpl in *. apply IH.
  destruct (Ascii.eqb c sep); [inversion H|].
  destruct (Split a sep) as [|p ps] eqn:E.
  - inversion H; subst. discriminate E.
  - inversion H; subst. reflexivity.
Qed.

Lemma Split_cons_single c a sep :
  Ascii.eqb c sep = false -> Split a sep = [a] -> Split (String c a) sep = [String c a].
Proof. intros E H; simpl; rewrite E, H; reflexivity. Qed.

Lemma HasPrefix_app a b : HasPrefix (a ++ b) a = true.
Proof. induction a as [|c a IH]; simpl; [reflexivity|]. rewrite Ascii.eqb_refl; exact IH. Qed.

Lemma HasPrefix_length l p : HasPrefix l p = true -> String.length p <= String.length l.
Proof.
  revert l; induction p as [|c p IH]; intros l H; simpl; [lia|].
  destruct l as [|c' l]; simpl in H; [discriminate|].
  apply andb_true_iff in H as [_ H]. simpl. apply IH in H. lia.
Qed.

(** ** The hex encoding *)

Lemma hex_digit_not_delim n : n < 16 -> Ascii.eqb (hex_digit n) delim = false.
Proof.
  intros H. do 16 (destruct n as [|n]; [reflexivity|]). lia.
Qed.

Lemma byte_nibbles b : Byte.to_nat b / 16 < 16 /\ Byte.to_nat b mod 16 < 16.
Proof.
  pose proof (Byte.to_nat_bounded b). split.
  - apply Nat.Div0.div_lt_upper_bound; lia.
  - apply Nat.mod_upper_bound; lia.
Qed.

Lemma hexUpper_no_delim s : Split (hexUpper s) delim = [hexUpper s].
Proof.
  induction s as [|b s IH]; [reflexivity|].
  destruct (byte_nibbles b) as [H1 H2]. simpl hexUpper.
  apply Split_cons_single; [apply hex_digit_not_delim; exact H1|].
  apply Split_cons_single; [apply hex_digit_not_delim; exact H2|].
  exact IH.
Qed.

Lemma hexUpper_length s : String.length (hexUpper s) = 2 * List.length s.
Proof. induction s as [|b s IH]; simpl; [reflexivity|]. rewrite IH; lia. Qed.

Lemma str_drop_length n a : String.length (str_drop n a) = String.length a - n.
Proof.
  revert a; induction n as [|n IH]; intros a; [simpl; lia|].
  destruct a as [|c a]; simpl; [reflexivity|]. apply IH.
Qed.

Lemma suffix_length s :
  List.length s = sha1_Size ->
  String.length (str_drop prefixSize (hexUpper s)) = 35.
Proof. intros H. rewrite str_drop_length, hexUpper_length, H. reflexivity. Qed.

(** ** The count field has no delimiter *)

Lemma decimal_from_no_delim s : forall n u,
  decimal_from n s = Some u -> Split s delim = [s].
Proof.
  induction s as [|c s IH]; intros n u H; [reflexivity|].
  simpl in H. destruct (dec_digit c) as [d|] eqn:D; [|discriminate].
  apply Split_cons_single; [|exact (IH _ _ H)].
  destruct (Ascii.eqb_spec c delim) as [E|E]; [|reflexivity].
  subst c. discriminate D.
Qed.

Lemma decimal_int64_no_delim s v :
  decimal_int64 s = Some v -> Split s delim = [s].
Proof.
  unfold decimal_int64. destruct s as [|c r]; [discriminate|].
  assert (Hds : forall ds, match ds with
                           | EmptyString => None
                           | _ => match decimal_from 0 ds with
                                  | Some u => let v := (1 * u)%Z in
                                      if ((- 2 ^ 63 <=? v) && (v <=? 2 ^ 63 - 1))%Z
                                      then Some v else None
                                  | None => None
                                  end
                           end = Some v \/
                           match ds with
                           | EmptyString => None
                           | _ => match decimal_from 0 ds with
                                  | Some u => let v := (-1 * u)%Z in
                                      if ((- 2 ^ 63 <=? v) && (v <=? 2 ^ 63 - 1))%Z
                                      then Some v else None
                                  | None => None
                                  end
                           end = Some v -> Split ds delim = [ds]).
  { intros ds H. destruct ds as [|c' r']; [destruct H; discriminate|].
    destruct (decimal_from 0 (String c' r')) as [u|] eqn:E;
      [|destruct H; discriminate].
    exact (decimal_from_no_delim _ _ _ E). }
  destruct (Ascii.eqb_spec c "+"%char) as [Ep|Ep].
  - subst c. intros H. apply Split_cons_single; [reflexivity|]. apply Hds; left; exact H.
  - destruct (Ascii.eqb_spec c "-"%char) as [Em|Em].
    + subst c. intros H. apply Split_cons_single; [reflexivity|]. apply Hds; right; exact H.
    + intros H. apply Hds; left; exact H.
Qed.

Lemma decimal_int64_negative s v :
  decimal_int64 s = Some v -> (v < 0)%Z -> exists rest, s = String "-"%char rest.
Proof.
  unfold decimal_int64. destruct s as [|c r]; [discriminate|].
  assert (Hpos : forall ds, match ds with
                            | EmptyString => None
                            | _ => match decimal_from 0 ds with
                                   | Some u => let v := (1 * u)%Z in
                                       if ((- 2 ^ 63 <=? v) && (v <=? 2 ^ 63 - 1))%Z
                                       then Some v else None
                                   | None => None
                                   end
                            end = Some v -> (0 <= v)%Z).
  { intros ds H. destruct ds as [|c' r']; [discriminate|].
    destruct (decimal_from 0 (String c' r')) as [u|] eqn:E; [|discriminate].
    apply decimal_from_mono in E; [|lia]. cbn zeta in H.
    destruct (_ && _)%bool; [|discriminate].
    assert (v = 1 * u)%Z by congruence. lia. }
  destruct (Ascii.eqb_spec c "+"%char) as [Ep|Ep].
  - intros H Hv. apply (Hpos r) in H. lia.
  - destruct (Ascii.eqb_spec c "-"%char) as [Em|Em].
    + subst c. intros _ _. exists r; reflexivity.
    + intros H Hv. apply (Hpos (String c r)) in H. lia.
Qed.

Lemma parseCount_field a cnt v :
  Split a delim = [a] -> decimal_int64 cnt = Some v ->
  parseCount (a ++ String ":"%char cnt) = (v, None).
Proof.
  intros Ha Hc. unfold parseCount.
  change ":"%char with delim. rewrite (Split_app_sep a cnt delim Ha).
  rewrite (decimal_int64_no_delim _ _ Hc). apply ParseInt_ok; exact Hc.
Qed.

(** ** The scan *)

Lemma scan_suffix_match suffix pre r post :
  Forall (fun l => too_long l = false /\ HasPrefix (dropCR l) suffix = false) pre ->
  too_long r = false -> HasPrefix (dropCR r) suffix = true ->
  scan_suffix suffix (pre ++ r :: post) = Ok (dropCR r).
Proof.
  intros Hpre Hr Hm. induction Hpre as [|l pre [Hl Hp] _ IH]; simpl.
  - rewrite Hr, Hm; reflexivity.
  - rewrite Hl, Hp; exact IH.
Qed.

Lemma scan_suffix_none suffix ls :
  Forall (fun l => too_long l = false /\ HasPrefix (dropCR l) suffix = false) ls ->
  scan_suffix suffix ls = Ok EmptyString.
Proof.
  intros H. induction H as [|l ls [Hl Hp] _ IH]; simpl; [reflexivity|].
  rewrite Hl, Hp; exact IH.
Qed.

Lemma scan_suffix_too_long suffix pre r post :
  Forall (fun l => too_long l = false /\ HasPrefix (dropCR l) suffix = false) pre ->
  too_long r = true ->
  scan_suffix suffix (pre ++ r :: post) = Err ErrTooLong.
Proof.
  intros Hpre Hr. induction Hpre as [|l pre [Hl Hp] _ IH]; simpl.
  - rewrite Hr; reflexivity.
  - rewrite Hl, Hp; exact IH.
Qed.

Lemma scan_suffix_result suffix ls l :
  scan_suffix suffix ls = Ok l -> l = EmptyString \/ HasPrefix l suffix = true.
Proof.
  induction ls as [|r ls IH]; simpl; intros H.
  - inversion H; left; reflexivity.
  - destruct (too_long r); [discriminate|].
    destruct (HasPrefix (dropCR r) suffix) eqn:E.
    + inversion H; subst; right; exact E.
    + exact (IH H).
Qed.

(** ** Running Find *)

Section RunFind.

Variable Sprintf : string -> string -> string.
Variable net : client -> string -> get_outcome.
Variable f : Finder.
Variable s : list byte.

Let key := str_take prefixSize (hexUpper s).
Let sfx := str_drop prefixSize (hexUpper s).
Let fetched := check_response (net (conn f) (Sprintf (tmpl f) key)).

Lemma Find_20 :
  List.length s = sha1_Size ->
  Find Sprintf f s =
  bind (fetchPrefix Sprintf f key) (fun r =>
    match r with
    | Err e => Ret (0%Z, Some e)
    | Ok body =>
        match findSuffix sfx body with
        | Err e => Ret (0%Z, Some e)
        | Ok line =>
            if Nat.eqb (String.length line) 0 then Ret (0%Z, None)
            else Ret (parseCount line)
        end
    end).
Proof. intros H. unfold Find. rewrite H. reflexivity. Qed.

Lemma run_Find :
  List.length s = sha1_Size ->
  run net (Find Sprintf f s) =
  match fetched with
  | Err e => (0%Z, Some e)
  | Ok body =>
      match findSuffix sfx body with
      | Err e => (0%Z, Some e)
      | Ok line =>
          if Nat.eqb (String.length line) 0 then (0%Z, None) else parseCount line
      end
  end.
Proof.
  intros H. rewrite Find_20 by exact H. unfold fetched. simpl.
  destruct (check_response _) as [body|e]; [|reflexivity].
  destruct (findSuffix sfx body) as [line|e]; [|reflexivity].
  destruct (Nat.eqb _ 0); reflexivity.
Qed.

Lemma requests_Find :
  List.length s = sha1_Size ->
  requests net (Find Sprintf f s) = [(conn f, Sprintf (tmpl f) key)].
Proof.
  intros H. rewrite Find_20 by exact H. simpl.
  destruct (check_response _) as [body|e]; [|reflexivity].
  destruct (findSuffix sfx body) as [line|e]; [|reflexivity].
  destruct (Nat.eqb _ 0); reflexivity.
Qed.

Lemma Find_match_run body (pre : list string) r post :
  List.length s = sha1_Size -> fetched = Ok body ->
  raw_lines body = (pre ++ r :: post)%list ->
  Forall (fun l => too_long l = false /\ HasPrefix (dropCR l) sfx = false) pre ->
  too_long r = false -> HasPrefix (dropCR r) sfx = true ->
  run net (Find Sprintf f s) = parseCount (dropCR r).
Proof.
  intros Hs Hb Hl Hpre Hr Hm. rewrite run_Find by exact Hs. rewrite Hb.
  unfold findSuffix. rewrite Hl, (scan_suffix_match _ _ _ _ Hpre Hr Hm).
  pose proof (HasPrefix_length _ _ Hm) as Hlen. unfold sfx in Hlen.
  rewrite suffix_length in Hlen by exact Hs.
  destruct (Nat.eqb_spec (String.length (dropCR r)) 0); [lia | reflexivity].
Qed.

Lemma Find_too_long_run body (pre : list string) r post :
  List.length s = sha1_Size -> fetched = Ok body ->
  raw_lines body = (pre ++ r :: post)%list ->
  Forall (fun l => too_long l = false /\ HasPrefix (dropCR l) sfx = false) pre ->
  too_long r = true ->
  run net (Find Sprintf f s) = (0%Z, Some ErrTooLong).
Proof.
  intros Hs Hb Hl Hpre Hr. rewrite run_Find by exact Hs. rewrite Hb.
  unfold findSuffix. rewrite Hl, (scan_suffix_too_long _ _ _ _ Hpre Hr). reflexivity.
Qed.

Lemma Find_nomatch_run body :
  List.length s = sha1_Size -> fetched = Ok body ->
  Forall (fun l => too_long l = false /\ HasPrefix (dropCR l) sfx = false) (raw_lines body) ->
  run net (Find Sprintf f s) = (0%Z, None).
Proof.
  intros Hs Hb Hall. rewrite run_Find by exact Hs. rewrite Hb.
  unfold findSuffix. rewrite (scan_suffix_none _ _ Hall). reflexivity.
Qed.

Lemma Find_short_or_long :
  List.length s <> sha1_Size -> exists e, Find Sprintf f s = Ret (0%Z, Some e).
Proof.
  intros H. unfold Find.
  destruct (Nat.ltb_spec (List.length s) sha1_Size); [eexists; reflexivity|].
  destruct (Nat.ltb_spec sha1_Size (List.length s)); [eexists; reflexivity|].
  lia.
Qed.

End RunFind.

(** ** Where the errors of Find come from *)

Lemma ParseInt_error s v e : ParseInt s = (v, Some e) -> exists k, e = ErrNum s k.
Proof.
  unfold ParseInt. destruct s as [|c r]; [intros H; inversion H; eauto|].
  destruct (Ascii.eqb c "+"%char), (Ascii.eqb c "-"%char);
  destruct (ParseUint _) as [un [[|]|]];
  repeat match goal with |- context [if ?b then _ else _] => destruct b end;
  intros H; inversion H; eauto.
Qed.

Lemma check_response_error o e :
  check_response o = Err e -> (exists m, e = ErrGet m) \/ (exists st, e = ErrStatus st).
Proof.
  destruct o as [m|code st body [m|]]; simpl; intros H.
  - inversion H; eauto.
  - destruct (negb (code =? 200)%Z); inversion H; eauto.
  - destruct (negb (code =? 200)%Z); inversion H; eauto.
Qed.

Lemma scan_suffix_error suffix ls e : scan_suffix suffix ls = Err e -> e = ErrTooLong.
Proof.
  induction ls as [|r ls IH]; simpl; intros H; [discriminate|].
  destruct (too_long r); [inversion H; reflexivity|].
  destruct (HasPrefix (dropCR r) suffix); [discriminate | exact (IH H)].
Qed.

Lemma parseCount_error line v e :
  parseCount line = (v, Some e) -> e = ErrParse line \/ exists n k, e = ErrNum n k.
Proof.
  unfold parseCount. destruct (Split line delim) as [|a [|b [|c l]]];
    intros H; try (inversion H; left; reflexivity).
  apply ParseInt_error in H as [k Hk]. right; eauto.
Qed.

(** ** The claims *)

(** C1 (amended).  For a 20-byte digest whose fetch succeeds with [body]:
    when every line before the first line of [body] that begins with the
    suffix is shorter than bufio.MaxScanTokenSize, and that first line is
    itself short enough and reads exactly "<suffix>:<count>" with <count>
    a base-10 int64, Find returns that count with a nil error; when every
    line is short enough and none begins with the suffix, Find returns 0
    with a nil error. *)
Theorem Find_first_match_count :
  forall Sprintf net f s body,
  List.length s = sha1_Size ->
  check_response (net (conn f) (Sprintf (tmpl f) (str_take prefixSize (hexUpper s))))
    = Ok body ->
  (forall (pre : list string) r post cnt v,
     raw_lines body = (pre ++ r :: post)%list ->
     Forall (fun l => too_long l = false /\
                      HasPrefix (dropCR l) (str_drop prefixSize (hexUpper s)) = false) pre ->
     too_long r = false ->
     dropCR r = str_drop prefixSize (hexUpper s) ++ String ":"%char cnt ->
     decimal_int64 cnt = Some v ->
     run net (Find Sprintf f s) = (v, None)) /\
  (Forall (fun l => too_long l = false /\
                    HasPrefix (dropCR l) (str_drop prefixSize (hexUpper s)) = false)
          (raw_lines body) ->
   run net (Find Sprintf f s) = (0%Z, None)).
Proof.
  intros Sprintf net f s body Hs Hb. split.
  - intros pre r post cnt v Hl Hpre Hr Hd Hv.
    rewrite (Find_match_run Sprintf net f s body pre r post Hs Hb Hl Hpre Hr).
    + rewrite Hd. apply parseCount_field; [|exact Hv].
      apply Split_single_drop, hexUpper_no_delim.
    + rewrite Hd. apply HasPrefix_app.
  - intros Hall. exact (Find_nomatch_run Sprintf net f s body Hs Hb Hall).
Qed.

Lemma Find_first_match_count_witness :
  run (served (suffix0 ++ ":401")) (Find sprintf_s (NewFinder []) sum0) = (401%Z, None).
Proof.
  apply (proj1 (Find_first_match_count sprintf_s (served (suffix0 ++ ":401"))
                  (NewFinder []) sum0 (suffix0 ++ ":401") eq_refl eq_refl)
           [] (suffix0 ++ ":401") [] "401" 401%Z);
    [reflexivity | constructor | reflexivity | reflexivity | reflexivity].
Defined.

(** C1 fails as stated: the body holds the line "<suffix>:401", but an
    earlier line also begins with the suffix, and Find returns its count. *)
Lemma Find_first_match_count_counterexample :
  In (suffix0 ++ ":401")
     (map dropCR (raw_lines (suffix0 ++ "0:7" ++ String "010"%char (suffix0 ++ ":401")))) /\
  decimal_int64 "401" = Some 401%Z /\
  run (served (suffix0 ++ "0:7" ++ String "010"%char (suffix0 ++ ":401")))
      (Find sprintf_s (NewFinder []) sum0) = (7%Z, None).
Proof.
  split; [simpl; right; left; reflexivity|].
  split; vm_compute; reflexivity.
Qed.

(** The first five hex digits of a sum of at least three bytes. *)
Lemma hex_key b0 b1 b2 rest :
  str_take prefixSize (hexUpper (b0 :: b1 :: b2 :: rest)) =
  String (hex_digit (Byte.to_nat b0 / 16)) (String (hex_digit (Byte.to_nat b0 mod 16))
    (String (hex_digit (Byte.to_nat b1 / 16)) (String (hex_digit (Byte.to_nat b1 mod 16))
      (String (hex_digit (Byte.to_nat b2 / 16)) EmptyString)))).
Proof. reflexivity. Qed.

(** C2.  For 20-byte digests, Find hands fetchPrefix exactly the first five
    characters of the uppercase hex encoding, sends exactly one request,
    to Sprintf(tmpl, key) over f.conn, and two digests that agree on their
    first 20 bits produce the same key and the same requests, whatever
    their suffixes and whatever the network answers. *)
Theorem Find_sends_only_prefix :
  forall Sprintf net1 net2 f s1 s2,
  List.length s1 = sha1_Size -> List.length s2 = sha1_Size ->
  firstn 2 s1 = firstn 2 s2 ->
  Byte.to_nat (nth 2 s1 x00) / 16 = Byte.to_nat (nth 2 s2 x00) / 16 ->
  (exists k, Find Sprintf f s1 =
             bind (fetchPrefix Sprintf f (str_take prefixSize (hexUpper s1))) k) /\
  String.length (str_take prefixSize (hexUpper s1)) = 5 /\
  requests net1 (Find Sprintf f s1) =
    [(conn f, Sprintf (tmpl f) (str_take prefixSize (hexUpper s1)))] /\
  str_take prefixSize (hexUpper s1) = str_take prefixSize (hexUpper s2) /\
  requests net1 (Find Sprintf f s1) = requests net2 (Find Sprintf f s2).
Proof.
  intros Sprintf net1 net2 f s1 s2 H1 H2 H01 Hn.
  assert (Hkey : str_take prefixSize (hexUpper s1) = str_take prefixSize (hexUpper s2)).
  { destruct s1 as [|a0 [|a1 [|a2 r1]]]; try discriminate H1.
    destruct s2 as [|b0 [|b1 [|b2 r2]]]; try discriminate H2.
    cbn [nth firstn] in H01, Hn. inversion H01; subst.
    rewrite !hex_key, Hn. reflexivity. }
  split; [eexists; exact (Find_20 Sprintf f s1 H1)|].
  split.
  { destruct s1 as [|a0 [|a1 [|a2 r1]]]; try discriminate H1.
    rewrite hex_key. reflexivity. }
  split; [exact (requests_Find Sprintf net1 f s1 H1)|].
  split; [exact Hkey|].
  rewrite (requests_Find Sprintf net1 f s1 H1), (requests_Find Sprintf net2 f s2 H2), Hkey.
  reflexivity.
Qed.

Lemma Find_sends_only_prefix_witness :
  requests (served EmptyString) (Find sprintf_s (NewFinder []) sum0) =
  requests throttled (Find sprintf_s (NewFinder []) (x00 :: x00 :: x0f :: repeat xff 17)).
Proof.
  exact (proj2 (proj2 (proj2 (proj2
    (Find_sends_only_prefix sprintf_s (served EmptyString) throttled (NewFinder [])
       sum0 (x00 :: x00 :: x0f :: repeat xff 17) eq_refl eq_refl eq_refl eq_refl))))).
Defined.

(** C3.  An input shorter than 20 bytes yields count 0 with
    io.ErrShortBuffer, a longer one count 0 with io.ErrShortWrite (the
    error the code uses for a long input), in both cases without any
    request; a 20-byte input goes on to f.conn.Get and never yields either
    of these errors. *)
Theorem Find_input_validation :
  forall Sprintf f s,
  (List.length s < sha1_Size ->
     Find Sprintf f s = Ret (0%Z, Some ErrShortBuffer) /\
     forall net, requests net (Find Sprintf f s) = []) /\
  (sha1_Size < List.length s ->
     Find Sprintf f s = Ret (0%Z, Some ErrShortWrite) /\
     forall net, requests net (Find Sprintf f s) = []) /\
  (List.length s = sha1_Size ->
     (exists url k, Find Sprintf f s = Get (conn f) url k) /\
     forall net, snd (run net (Find Sprintf f s)) <> Some ErrShortBuffer /\
                 snd (run net (Find Sprintf f s)) <> Some ErrShortWrite).
Proof.
  intros Sprintf f s. split; [|split].
  - intros H. assert (E : Find Sprintf f s = Ret (0%Z, Some ErrShortBuffer)).
    { unfold Find. apply Nat.ltb_lt in H. rewrite H. reflexivity. }
    split; [exact E | intros net; rewrite E; reflexivity].
  - intros H. assert (E : Find Sprintf f s = Ret (0%Z, Some ErrShortWrite)).
    { unfold Find. destruct (Nat.ltb_spec (List.length s) sha1_Size); [lia|].
      apply Nat.ltb_lt in H. rewrite H. reflexivity. }
    split; [exact E | intros net; rewrite E; reflexivity].
  - intros H. split.
    + rewrite (Find_20 Sprintf f s H). do 2 eexists. reflexivity.
    + intros net. rewrite (run_Find Sprintf net f s H).
      destruct (check_response _) as [body|e] eqn:Ec.
      * destruct (findSuffix _ body) as [line|e] eqn:Ef.
        -- destruct (Nat.eqb _ 0); [simpl; split; discriminate|].
           destruct (parseCount line) as [v [e|]] eqn:Ep; [|simpl; split; discriminate].
           apply parseCount_error in Ep as [-> | [n [k ->]]]; simpl; split; discriminate.
        -- apply scan_suffix_error in Ef as ->. simpl; split; discriminate.
      * apply check_response_error in Ec as [[m ->] | [st ->]]; simpl; split; discriminate.
Qed.

(** C4 (amended).  findSuffix scans the lines of the body in order.  When
    every line up to and including the first line that begins with the
    suffix is shorter than bufio.MaxScanTokenSize, the result is that
    line; when every line is short enough and none begins with the suffix,
    the result is the empty (not found) line; any line it returns begins
    with the suffix, so an occurrence at a later position never matches;
    and a line of bufio.MaxScanTokenSize bytes or more reached before any
    line beginning with the suffix makes the scan fail with
    bufio.ErrTooLong. *)
Theorem findSuffix_first_leading_match :
  forall suffix body,
  (forall (pre : list string) r post,
     raw_lines body = (pre ++ r :: post)%list ->
     Forall (fun l => too_long l = false /\ HasPrefix (dropCR l) suffix = false) pre ->
     too_long r = false -> HasPrefix (dropCR r) suffix = true ->
     findSuffix suffix body = Ok (dropCR r)) /\
  (Forall (fun l => too_long l = false /\ HasPrefix (dropCR l) suffix = false)
          (raw_lines body) ->
   findSuffix suffix body = Ok EmptyString) /\
  (forall line, findSuffix suffix body = Ok line ->
                line = EmptyString \/ HasPrefix line suffix = true) /\
  (forall (pre : list string) r post,
     raw_lines body = (pre ++ r :: post)%list ->
     Forall (fun l => too_long l = false /\ HasPrefix (dropCR l) suffix = false) pre ->
     too_long r = true -> findSuffix suffix body = Err ErrTooLong).
Proof.
  intros suffix body. unfold findSuffix. split; [|split; [|split]].
  - intros pre r post Hl Hpre Hr Hm. rewrite Hl. exact (scan_suffix_match _ _ _ _ Hpre Hr Hm).
  - exact (scan_suffix_none suffix (raw_lines body)).
  - exact (scan_suffix_result suffix (raw_lines body)).
  - intros pre r post Hl Hpre Hr. rewrite Hl. exact (scan_suffix_too_long _ _ _ _ Hpre Hr).
Qed.

(** C4 fails as stated: a line of 64 KiB before the first line beginning
    with the suffix makes the scan fail with bufio.ErrTooLong. *)
Lemma findSuffix_first_leading_match_counterexample :
  findSuffix "alpha" (long_line ++ String "010"%char "alpha:0") = Err ErrTooLong /\
  findSuffix "alpha" long_line = Err ErrTooLong.
Proof. split; vm_compute; reflexivity. Qed.

(** C5.  parseCount splits the line on ':'; any field count other than two
    is an error with count 0; with two fields the second is parsed by
    strconv.ParseInt(_, 10, 64), which succeeds exactly on an optional sign
    followed by decimal digits whose value is in the int64 range, and fails
    otherwise; and the table of TestParseCount holds. *)
Theorem parseCount_contract :
  (forall line, List.length (Split line delim) <> 2 ->
                parseCount line = (0%Z, Some (ErrParse line))) /\
  (forall line a b v, Split line delim = [a; b] ->
                      parseCount line = (v, None) <-> decimal_int64 b = Some v) /\
  (forall line a b, Split line delim = [a; b] -> decimal_int64 b = None ->
                    snd (parseCount line) <> None) /\
  parseCount "alpha:117" = (117%Z, None) /\
  parseCount "alpha:2345678901" = (2345678901%Z, None) /\
  snd (parseCount "alpha:bravo") <> None /\
  snd (parseCount "::") <> None /\
  snd (parseCount "") <> None.
Proof.
  split; [|split; [|split]].
  - intros line H. unfold parseCount.
    destruct (Split line delim) as [|a [|b [|c l]]]; try reflexivity.
    simpl in H; lia.
  - intros line a b v H. unfold parseCount. rewrite H. apply ParseInt_ok.
  - intros line a b H Hn. unfold parseCount. rewrite H.
    destruct (ParseInt b) as [v [e|]] eqn:E; simpl; [discriminate|].
    apply ParseInt_ok in E. congruence.
  - repeat split; vm_compute; try reflexivity; discriminate.
Qed.

(** C6: the count strconv.ParseInt reports on an out-of-range count field
    (math.MaxInt64) reaches the caller together with the error. *)
Theorem Find_out_of_range_count :
  run (served (suffix0 ++ ":9223372036854775808")) (Find sprintf_s (NewFinder []) sum0)
  = (9223372036854775807%Z, Some (ErrNum "9223372036854775808" NumRange)).
Proof. vm_compute. reflexivity. Qed.

(** C7 (amended).  When Find returns a nil error, the count is 0 or the
    int64 value of the count field of the line findSuffix returned; it is
    negative only when that field starts with '-'. *)
Theorem Find_ok_count :
  forall Sprintf net f s v,
  run net (Find Sprintf f s) = (v, None) ->
  v = 0%Z \/
  exists body line a b,
    check_response (net (conn f) (Sprintf (tmpl f) (str_take prefixSize (hexUpper s))))
      = Ok body /\
    findSuffix (str_drop prefixSize (hexUpper s)) body = Ok line /\
    Split line delim = [a; b] /\ decimal_int64 b = Some v /\
    ((v < 0)%Z -> exists rest, b = String "-"%char rest).
Proof.
  intros Sprintf net f s v H.
  destruct (Nat.eq_dec (List.length s) sha1_Size) as [Hs|Hs].
  2: { destruct (Find_short_or_long Sprintf f s Hs) as [e He].
       rewrite He in H. simpl in H. discriminate. }
  rewrite (run_Find Sprintf net f s Hs) in H.
  destruct (check_response _) as [body|e] eqn:Ec; [|discriminate].
  destruct (findSuffix _ body) as [line|e] eqn:Ef; [|discriminate].
  destruct (Nat.eqb _ 0). { inversion H; left; reflexivity. }
  right. unfold parseCount in H.
  destruct (Split line delim) as [|a [|b [|c l]]] eqn:Es; try discriminate.
  apply ParseInt_ok in H. exists body, line, a, b.
  split; [reflexivity|]. split; [exact Ef|]. split; [exact Es|]. split; [exact H|].
  intros Hv. exact (decimal_int64_negative _ _ H Hv).
Qed.

Lemma Find_ok_count_witness :
  (-5 = 0)%Z \/
  exists body line a b,
    check_response (served (suffix0 ++ ":-5") DefaultClient
                      (sprintf_s DefaultTemplate (str_take prefixSize (hexUpper sum0))))
      = Ok body /\
    findSuffix (str_drop prefixSize (hexUpper sum0)) body = Ok line /\
    Split line delim = [a; b] /\ decimal_int64 b = Some (-5)%Z /\
    ((-5 < 0)%Z -> exists rest, b = String "-"%char rest).
Proof.
  apply (Find_ok_count sprintf_s (served (suffix0 ++ ":-5")) (NewFinder []) sum0 (-5)%Z).
  vm_compute. reflexivity.
Defined.

(** C7 fails as stated: a count field "-5" on the matching line gives a
    negative count with a nil error. *)
Lemma Find_ok_count_counterexample :
  run (served (suffix0 ++ ":-5")) (Find sprintf_s (NewFinder []) sum0) = ((-5)%Z, None).
Proof. vm_compute. reflexivity. Qed.

(** C8.  For a 20-byte digest, when fetchPrefix fails (f.conn.Get fails,
    the status code is not 200, or reading the body fails), Find returns
    count 0 with that very error, which is not the nil error of "not found";
    a status code other than 200 gives fmt.Errorf(resp.Status). *)
Theorem Find_fetch_failure :
  forall Sprintf net f s,
  List.length s = sha1_Size ->
  (forall e,
     check_response (net (conn f) (Sprintf (tmpl f) (str_take prefixSize (hexUpper s))))
       = Err e ->
     run net (Find Sprintf f s) = (0%Z, Some e) /\
     run net (Find Sprintf f s) <> (0%Z, None)) /\
  (forall code st body rerr,
     net (conn f) (Sprintf (tmpl f) (str_take prefixSize (hexUpper s)))
       = Response code st body rerr ->
     code <> 200%Z ->
     run net (Find Sprintf f s) = (0%Z, Some (ErrStatus st))).
Proof.
  intros Sprintf net f s Hs.
  assert (Herr : forall e,
     check_response (net (conn f) (Sprintf (tmpl f) (str_take prefixSize (hexUpper s))))
       = Err e -> run net (Find Sprintf f s) = (0%Z, Some e)).
  { intros e He. rewrite (run_Find Sprintf net f s Hs). rewrite He. reflexivity. }
  split.
  - intros e He. rewrite (Herr e He). split; [reflexivity | discriminate].
  - intros code st body rerr Ho Hc. apply Herr. rewrite Ho. simpl.
    destruct (Z.eqb_spec code 200); [contradiction | reflexivity].
Qed.

Lemma Find_fetch_failure_witness :
  run throttled (Find sprintf_s (NewFinder []) sum0)
  = (0%Z, Some (ErrStatus "429 Too Many Requests")).
Proof.
  apply (proj2 (Find_fetch_failure sprintf_s throttled (NewFinder []) sum0 eq_refl)
           429%Z "429 Too Many Requests" EmptyString None); [reflexivity | discriminate].
Defined.

(** C9.  NewFinder without options uses DefaultTemplate and
    http.DefaultClient; WithURLTemplate changes only the template and
    WithClient only the client; the options apply in order. *)
Theorem NewFinder_options :
  NewFinder [] = mkFinder DefaultTemplate DefaultClient /\
  DefaultTemplate = "https://api.pwnedpasswords.com/range/%s" /\
  (forall t f, tmpl (WithURLTemplate t f) = t /\ conn (WithURLTemplate t f) = conn f) /\
  (forall c f, conn (WithClient c f) = c /\ tmpl (WithClient c f) = tmpl f) /\
  (forall opts opt, NewFinder (opts ++ [opt])%list = opt (NewFinder opts)).
Proof.
  split; [reflexivity|]. split; [reflexivity|].
  split; [intros; split; reflexivity|]. split; [intros; split; reflexivity|].
  intros opts opt. unfold NewFinder. rewrite fold_left_app. reflexivity.
Qed.

(** C10 (amended).  For a 20-byte digest whose fetch succeeds with [body],
    only the first line beginning with the suffix is parsed: when the lines
    before it are shorter than bufio.MaxScanTokenSize and do not begin with
    the suffix, and it is itself short enough, Find returns parseCount of
    that line, whatever those earlier lines and all later lines hold; a
    line of bufio.MaxScanTokenSize bytes or more reached before any line
    beginning with the suffix makes Find fail with bufio.ErrTooLong; when
    every line is short enough and none begins with the suffix, and in
    particular for an empty body, Find returns 0 with a nil error. *)
Theorem Find_only_first_match_parsed :
  forall Sprintf net f s body,
  List.length s = sha1_Size ->
  check_response (net (conn f) (Sprintf (tmpl f) (str_take prefixSize (hexUpper s))))
    = Ok body ->
  (forall (pre : list string) r post,
     raw_lines body = (pre ++ r :: post)%list ->
     Forall (fun l => too_long l = false /\
                      HasPrefix (dropCR l) (str_drop prefixSize (hexUpper s)) = false) pre ->
     too_long r = false -> HasPrefix (dropCR r) (str_drop prefixSize (hexUpper s)) = true ->
     run net (Find Sprintf f s) = parseCount (dropCR r)) /\
  (Forall (fun l => too_long l = false /\
                    HasPrefix (dropCR l) (str_drop prefixSize (hexUpper s)) = false)
          (raw_lines body) ->
   run net (Find Sprintf f s) = (0%Z, None)) /\
  (body = EmptyString -> run net (Find Sprintf f s) = (0%Z, None)) /\
  (forall (pre : list string) r post,
     raw_lines body = (pre ++ r :: post)%list ->
     Forall (fun l => too_long l = false /\
                      HasPrefix (dropCR l) (str_drop prefixSize (hexUpper s)) = false) pre ->
     too_long r = true ->
     run net (Find Sprintf f s) = (0%Z, Some ErrTooLong)).
Proof.
  intros Sprintf net f s body Hs Hb. split; [|split; [|split]].
  - intros pre r post Hl Hpre Hr Hm.
    exact (Find_match_run Sprintf net f s body pre r post Hs Hb Hl Hpre Hr Hm).
  - intros Hall. exact (Find_nomatch_run Sprintf net f s body Hs Hb Hall).
  - intros ->. apply (Find_nomatch_run Sprintf net f s EmptyString Hs Hb). constructor.
  - intros pre r post Hl Hpre Hr.
    exact (Find_too_long_run Sprintf net f s body pre r post Hs Hb Hl Hpre Hr).
Qed.

Lemma Find_only_first_match_parsed_witness :
  run (served (suffix0 ++ ":3" ++ String "010"%char "not a record: at all"))
      (Find sprintf_s (NewFinder []) sum0)
  = parseCount (suffix0 ++ ":3").
Proof.
  apply (proj1 (Find_only_first_match_parsed sprintf_s
                  (served (suffix0 ++ ":3" ++ String "010"%char "not a record: at all"))
                  (NewFinder []) sum0
                  (suffix0 ++ ":3" ++ String "010"%char "not a record: at all")
                  eq_refl eq_refl)
           [] (suffix0 ++ ":3") ["not a record: at all"]);
    [reflexivity | constructor | reflexivity | reflexivity].
Defined.

(** C10 fails as stated: a body made of one 64 KiB line that does not
    begin with the suffix makes Find fail with bufio.ErrTooLong. *)
Lemma Find_only_first_match_parsed_counterexample :
  HasPrefix long_line suffix0 = false /\
  run (served long_line) (Find sprintf_s (NewFinder []) sum0) = (0%Z, Some ErrTooLong).
Proof. split; vm_compute; reflexivity. Qed.

(** * Further properties of hibp/range.go *)

(** ** strconv.ParseInt on its error paths *)

Lemma ParseInt_error_value s v e :
  ParseInt s = (v, Some e) ->
  v = 0%Z \/ (e = ErrNum s NumRange /\ (v = 2 ^ 63 - 1 \/ v = - 2 ^ 63)%Z).
Proof.
  unfold ParseInt. destruct s as [|c r]; [intros H; inversion H; auto|].
  destruct (Ascii.eqb c "+"%char), (Ascii.eqb c "-"%char);
  destruct (ParseUint _) as [un [[|]|]];
  repeat match goal with |- context [if ?b then _ else _] => destruct b end;
  intros H; inversion H; subst; auto.
Qed.

Lemma dec_digit_not_sign c d :
  dec_digit c = Some d -> Ascii.eqb c "+"%char = false /\ Ascii.eqb c "-"%char = false.
Proof.
  intros D. split.
  - destruct (Ascii.eqb_spec c "+"%char); [subst; discriminate D | reflexivity].
  - destruct (Ascii.eqb_spec c "-"%char); [subst; discriminate D | reflexivity].
Qed.

(** ParseUint on a string of decimal digits of value [u]. *)
Lemma ParseUint_decimal ds u :
  ds <> EmptyString -> decimal_from 0 ds = Some u ->
  ParseUint ds = if (u <=? maxVal)%Z then (u, None) else (maxVal, Some NumRange).
Proof.
  intros Hne Hd. assert (Hm : (0 <= 0 <= maxVal)%Z) by (rewrite maxVal_val; lia).
  assert (Hu := decimal_from_mono ds 0 u ltac:(lia) Hd).
  destruct ds as [|c r]; [contradiction|]. unfold ParseUint.
  destruct (parseUint_loop 0 (String c r)) as [un [[|]|]] eqn:E.
  - apply parseUint_loop_syntax in E; [congruence | exact Hm].
  - apply parseUint_loop_range in E; [|exact Hm].
    destruct E as [-> [Ed | [w [Ed Hw]]]]; [congruence|].
    rewrite Hd in Ed. inversion Ed; subst w.
    destruct (Z.leb_spec u maxVal); [lia | reflexivity].
  - apply parseUint_loop_ok in E as [Ed Hle]; [|exact Hm].
    rewrite Hd in Ed. inversion Ed; subst un.
    destruct (Z.leb_spec u maxVal); [reflexivity | lia].
Qed.

(** ** bytes.Split and bytes.Count *)

Lemma Split_length s sep : List.length (Split s sep) = Count s sep + 1.
Proof.
  induction s as [|c s IH]; simpl; [reflexivity|].
  destruct (Ascii.eqb c sep); simpl.
  - rewrite IH; reflexivity.
  - destruct (Split s sep) as [|p ps]; simpl in *; lia.
Qed.

Lemma ParseInt_not_ErrParse s v l : ParseInt s <> (v, Some (ErrParse l)).
Proof.
  intros H. apply ParseInt_error in H as [k Hk]. discriminate Hk.
Qed.

(** X1.  Whenever parseCount reports an error, its count is 0, except for a
    count field out of the int64 range, where it is the clamped bound
    math.MaxInt64 or math.MinInt64 that strconv.ParseInt returns. *)
Theorem parseCount_error_value :
  forall line v e,
  parseCount line = (v, Some e) ->
  v = 0%Z \/ (exists num, e = ErrNum num NumRange) /\ (v = 2 ^ 63 - 1 \/ v = - 2 ^ 63)%Z.
Proof.
  intros line v e. unfold parseCount.
  destruct (Split line delim) as [|a [|b [|c l]]]; intros H;
    try (inversion H; left; reflexivity).
  apply ParseInt_error_value in H as [H | [He Hv]]; [left; exact H|].
  right. split; [exists b; exact He | exact Hv].
Qed.

Lemma parseCount_error_value_witness :
  (9223372036854775807 = 0)%Z \/
  (exists num, ErrNum "9223372036854775808" NumRange = ErrNum num NumRange) /\
  (9223372036854775807 = 2 ^ 63 - 1 \/ 9223372036854775807 = - 2 ^ 63)%Z.
Proof.
  apply (parseCount_error_value "alpha:9223372036854775808").
  vm_compute. reflexivity.
Defined.

(** X2.  strconv.ParseInt(_, 10, 64) on decimal digits whose value does not
    fit in an int64 fails with ErrRange and returns math.MaxInt64 (no sign
    or '+') or math.MinInt64 ('-' and a value above 2^63). *)
Theorem ParseInt_out_of_range :
  forall ds u,
  ds <> EmptyString -> decimal_from 0 ds = Some u ->
  ((2 ^ 63 <= u)%Z ->
     ParseInt ds = ((2 ^ 63 - 1)%Z, Some (ErrNum ds NumRange)) /\
     ParseInt (String "+"%char ds)
       = ((2 ^ 63 - 1)%Z, Some (ErrNum (String "+"%char ds) NumRange))) /\
  ((2 ^ 63 < u)%Z ->
     ParseInt (String "-"%char ds) = ((- 2 ^ 63)%Z, Some (ErrNum (String "-"%char ds) NumRange))).
Proof.
  intros ds u Hne Hd. pose proof (ParseUint_decimal ds u Hne Hd) as Hp.
  split.
  - intros Hu. split.
    + destruct ds as [|c r]; [contradiction|].
      simpl in Hd. destruct (dec_digit c) as [d|] eqn:D; [|discriminate].
      destruct (dec_digit_not_sign c d D) as [E1 E2].
      unfold ParseInt. lazy beta iota. rewrite E1, E2. lazy beta iota. rewrite Hp.
      destruct (Z.leb_spec u maxVal); cbn [negb andb];
        destruct (Z.leb_spec (2 ^ 63) u); try lia; reflexivity.
    + unfold ParseInt. cbn [Ascii.eqb Bool.eqb]. rewrite Hp.
      destruct (Z.leb_spec u maxVal); cbn [negb andb];
        destruct (Z.leb_spec (2 ^ 63) u); try lia; reflexivity.
  - intros Hu. unfold ParseInt. cbn [Ascii.eqb Bool.eqb]. rewrite Hp.
    destruct (Z.leb_spec u maxVal).
    + cbn [negb andb]. destruct (Z.ltb_spec (2 ^ 63) u); [reflexivity | lia].
    + cbn [negb andb]. rewrite maxVal_val. reflexivity.
Qed.

Lemma ParseInt_out_of_range_witness :
  ParseInt "-9223372036854775809"
  = ((- 2 ^ 63)%Z, Some (ErrNum "-9223372036854775809" NumRange)).
Proof.
  apply (proj2 (ParseInt_out_of_range "9223372036854775809" 9223372036854775809%Z
                  ltac:(discriminate) eq_refl)).
  reflexivity.
Defined.

(** X3.  parseCount fails with the malformed-line error naming the line
    exactly when the line does not contain exactly one ':'. *)
Theorem parseCount_ErrParse_iff :
  forall line,
  snd (parseCount line) = Some (ErrParse line) <-> Count line delim <> 1.
Proof.
  intros line. pose proof (Split_length line delim) as Hl. unfold parseCount.
  destruct (Split line delim) as [|a [|b [|c l]]]; simpl in Hl.
  - lia.
  - split; [lia | reflexivity].
  - split; [|lia]. intros H. destruct (ParseInt b) as [v e] eqn:E. simpl in H. subst e.
    exfalso. exact (ParseInt_not_ErrParse b v line E).
  - split; [lia | reflexivity].
Qed.

(** ** Lines of the body *)

Lemma Split_no_sep s sep :
  Forall (fun c => Ascii.eqb c sep = false) (list_ascii_of_string s) -> Split s sep = [s].
Proof.
  induction s as [|c s IH]; intros H; [reflexivity|].
  simpl in H; inversion H; subst. apply Split_cons_single; [assumption | apply IH; assumption].
Qed.

Lemma Count_zero_Split s sep : Count s sep = 0 -> Split s sep = [s].
Proof.
  induction s as [|c s IH]; intros H; [reflexivity|]. simpl in H.
  destruct (Ascii.eqb c sep) eqn:E; [discriminate|].
  apply Split_cons_single; [exact E | apply IH; exact H].
Qed.

Lemma Split_single_app a b sep :
  Split a sep = [a] -> Split b sep = [b] -> Split (a ++ b) sep = [a ++ b].
Proof.
  induction a as [|c a IH]; simpl; intros Ha Hb; [exact Hb|].
  destruct (Ascii.eqb c sep) eqn:E; [inversion Ha|].
  assert (Ha' : Split a sep = [a]).
  { destruct (Split a sep) as [|p ps] eqn:Es.
    - inversion Ha; subst. discriminate Es.
    - inversion Ha; subst. reflexivity. }
  rewrite (IH Ha' Hb). reflexivity.
Qed.

Lemma raw_lines_cons a t :
  Split a "010"%char = [a] -> raw_lines (a ++ String "010"%char t) = a :: raw_lines t.
Proof.
  intros Ha. unfold raw_lines. rewrite (Split_app_sep a t _ Ha).
  destruct (Split t "010"%char) as [|p ps] eqn:Et.
  - destruct t; simpl in Et; [discriminate|].
    destruct (Ascii.eqb _ _); [discriminate|]. destruct (Split t _); discriminate.
  - simpl (rev (a :: p :: ps)).
    destruct (rev ps ++ [p])%list as [|x y] eqn:Er.
    + destruct (rev ps); discriminate.
    + simpl (rev (p :: ps)). rewrite Er. simpl.
      destruct x as [|c x]; [|reflexivity].
      rewrite rev_app_distr. reflexivity.
Qed.

Lemma raw_lines_last last :
  Split last "010"%char = [last] ->
  raw_lines last = match last with EmptyString => [] | _ => [last] end.
Proof. intros H. unfold raw_lines. rewrite H. destruct last; reflexivity. Qed.

Lemma list_ascii_of_string_app a b :
  list_ascii_of_string (a ++ b) = (list_ascii_of_string a ++ list_ascii_of_string b)%list.
Proof. induction a as [|c a IH]; simpl; [reflexivity | rewrite IH; reflexivity]. Qed.

Lemma string_app_assoc a b c : (a ++ b) ++ c = a ++ (b ++ c).
Proof. induction a as [|x a IH]; simpl; [reflexivity | rewrite IH; reflexivity]. Qed.

Lemma dropCR_CR l : dropCR (l ++ String "013"%char EmptyString) = l.
Proof.
  unfold dropCR. rewrite list_ascii_of_string_app. simpl.
  rewrite rev_app_distr. simpl. rewrite rev_involutive.
  apply string_of_list_ascii_of_string.
Qed.

Lemma dropCR_no_CR l :
  Forall (fun c => c <> "013"%char) (list_ascii_of_string l) -> dropCR l = l.
Proof.
  intros H. unfold dropCR.
  destruct (rev (list_ascii_of_string l)) as [|c r] eqn:E; [reflexivity|].
  assert (Hin : In c (list_ascii_of_string l))
    by (apply in_rev; rewrite E; left; reflexivity).
  rewrite Forall_forall in H. specialize (H c Hin).
  destruct (Ascii.eqb_spec c "013"%char) as [Hc|Hc]; [contradiction|].
  destruct c as [[] [] [] [] [] [] [] []]; try reflexivity; exfalso; apply Hc; reflexivity.
Qed.

Lemma raw_lines_single a :
  Split a "010"%char = [a] -> a <> EmptyString -> raw_lines a = [a].
Proof. intros H Ha. rewrite (raw_lines_last a H). destruct a; [contradiction | reflexivity]. Qed.

Lemma string_length_app a b : String.length (a ++ b) = String.length a + String.length b.
Proof. induction a as [|c a IH]; simpl; [reflexivity | rewrite IH; reflexivity]. Qed.

Lemma string_app_nil_r a : a ++ EmptyString = a.
Proof. induction a as [|c a IH]; simpl; [reflexivity | rewrite IH; reflexivity]. Qed.

Lemma string_app_crlf a t :
  a ++ String "013"%char (String "010"%char t)
  = (a ++ String "013"%char EmptyString) ++ String "010"%char t.
Proof. rewrite string_app_assoc. reflexivity. Qed.

(** X4.  findSuffix reads a body written as lines ended by "\n", or the
    same lines ended by "\r\n", the same way: when no written line holds a
    '\n' or ends in '\r', and every line with one more byte still fits in
    bufio.MaxScanTokenSize, both scans return the first written line that
    begins with the suffix, or the empty line when none does. *)
Theorem findSuffix_line_endings :
  forall suffix (ls : list string),
  Forall (fun l => Count l "010"%char = 0 /\ dropCR l = l /\
                   S (String.length l) < MaxScanTokenSize) ls ->
  findSuffix suffix (fold_right (fun l acc => l ++ String "010"%char acc) EmptyString ls)
    = Ok match find (fun l => HasPrefix l suffix) ls with
         | Some l => l
         | None => EmptyString
         end /\
  findSuffix suffix (fold_right (fun l acc =>
                       l ++ String "013"%char (String "010"%char acc)) EmptyString ls)
    = Ok match find (fun l => HasPrefix l suffix) ls with
         | Some l => l
         | None => EmptyString
         end.
Proof.
  intros suffix ls H. unfold findSuffix.
  induction H as [|l ls [Hc [Hd Hlen]] _ [IH1 IH2]]; [split; reflexivity|].
  pose proof (Count_zero_Split _ _ Hc) as Hl.
  cbn [fold_right find]. split.
  - rewrite (raw_lines_cons l _ Hl). cbn [scan_suffix].
    replace (too_long l) with false
      by (symmetry; unfold too_long; apply Nat.leb_gt; lia).
    rewrite Hd. destruct (HasPrefix l suffix); [reflexivity | exact IH1].
  - rewrite string_app_crlf.
    rewrite raw_lines_cons by (apply Split_single_app; [exact Hl | reflexivity]).
    cbn [scan_suffix].
    replace (too_long (l ++ String "013"%char EmptyString)) with false
      by (symmetry; unfold too_long; apply Nat.leb_gt; rewrite string_length_app;
          simpl (String.length (String _ _)); lia).
    rewrite dropCR_CR. destruct (HasPrefix l suffix); [reflexivity | exact IH2].
Qed.

Lemma findSuffix_line_endings_witness :
  findSuffix "AAAAA" (fold_right (fun l acc => l ++ String "010"%char acc) EmptyString
                        ["0000A:1"; "AAAAA:2"; "AAAAA:3"])
    = Ok "AAAAA:2" /\
  findSuffix "AAAAA" (fold_right (fun l acc =>
                        l ++ String "013"%char (String "010"%char acc)) EmptyString
                        ["0000A:1"; "AAAAA:2"; "AAAAA:3"])
    = Ok "AAAAA:2".
Proof.
  apply (findSuffix_line_endings "AAAAA" ["0000A:1"; "AAAAA:2"; "AAAAA:3"]).
  repeat apply Forall_cons; try apply Forall_nil;
    (split; [reflexivity | split; [reflexivity | apply Nat.ltb_lt; vm_compute; reflexivity]]).
Defined.

(** X5.  findSuffix fails only with bufio.ErrTooLong, and exactly when a
    line of bufio.MaxScanTokenSize bytes or more is reached before any
    line that begins with the suffix. *)
Theorem findSuffix_error_iff :
  forall suffix body e,
  findSuffix suffix body = Err e <->
  e = ErrTooLong /\
  exists (pre : list string) r post,
    raw_lines body = (pre ++ r :: post)%list /\
    Forall (fun l => too_long l = false /\ HasPrefix (dropCR l) suffix = false) pre /\
    too_long r = true.
Proof.
  intros suffix body e. unfold findSuffix. generalize (raw_lines body) as ls.
  induction ls as [|r ls IH]; simpl.
  - split; [discriminate|]. intros [_ [pre [r [post [H _]]]]].
    destruct pre; discriminate.
  - destruct (too_long r) eqn:Er.
    + split.
      * intros H; inversion H; subst. split; [reflexivity|].
        exists [], r, ls. repeat split; [constructor | exact Er].
      * intros [-> _]; reflexivity.
    + destruct (HasPrefix (dropCR r) suffix) eqn:Em.
      * split; [discriminate|]. intros [_ [pre [r' [post [H [Hpre Hr']]]]]].
        destruct pre as [|l pre]; simpl in H; inversion H; subst.
        -- congruence.
        -- inversion Hpre as [|? ? [_ Hp] _]; congruence.
      * rewrite IH. split.
        -- intros [He [pre [r' [post [H [Hpre Hr']]]]]]. split; [exact He|].
           exists (r :: pre), r', post. simpl; rewrite H.
           split; [reflexivity|]. split; [constructor; [split; assumption | exact Hpre] | exact Hr'].
        -- intros [He [pre [r' [post [H [Hpre Hr']]]]]]. split; [exact He|].
           destruct pre as [|l pre]; simpl in H; inversion H; subst; [congruence|].
           inversion Hpre; subst. exists pre, r', post. auto.
Qed.

Lemma findSuffix_error_iff_witness :
  findSuffix "alpha" (long_line ++ String "010"%char "alpha:0") = Err ErrTooLong.
Proof.
  apply (proj2 (findSuffix_error_iff "alpha" (long_line ++ String "010"%char "alpha:0") ErrTooLong)).
  split; [reflexivity|]. exists [], long_line, ["alpha:0"].
  assert (Hc : Count long_line "010"%char = 0) by (vm_compute; reflexivity).
  split; [|split; [constructor | vm_compute; reflexivity]].
  rewrite (raw_lines_cons _ _ (Count_zero_Split _ _ Hc)). reflexivity.
Defined.

(** ** Errors of Find *)

(** X6.  Whatever the network answers, an error returned by Find comes with
    count 0, except a range error of strconv.ParseInt, which comes with
    math.MaxInt64 or math.MinInt64. *)
Theorem Find_error_count :
  forall (Sprintf : string -> string -> string) net f s v e,
  run net (Find Sprintf f s) = (v, Some e) ->
  v = 0%Z \/
  (exists num, e = ErrNum num NumRange /\ (v = 2 ^ 63 - 1 \/ v = - 2 ^ 63)%Z).
Proof.
  intros Sprintf net f s v e H.
  destruct (Nat.eq_dec (List.length s) sha1_Size) as [Hs|Hs].
  - rewrite (run_Find Sprintf net f s Hs) in H.
    destruct (check_response _) as [body|e1]; [|inversion H; auto].
    destruct (findSuffix _ body) as [line|e2]; [|inversion H; auto].
    destruct (Nat.eqb _ 0); [discriminate|].
    unfold parseCount in H.
    destruct (Split line delim) as [|a [|p1 [|x rest]]]; try (inversion H; auto; fail).
    destruct (ParseInt_error_value _ _ _ H) as [Hv|[He Hv]]; [left; exact Hv|].
    right; exists p1; auto.
  - destruct (Find_short_or_long Sprintf f s Hs) as [e0 He0].
    rewrite He0 in H. inversion H; auto.
Qed.

Lemma Find_error_count_witness :
  run (served (suffix0 ++ ":9223372036854775808")) (Find sprintf_s (NewFinder []) sum0)
    = (9223372036854775807%Z, Some (ErrNum "9223372036854775808" NumRange)) /\
  (9223372036854775807 = 0 \/
   exists num, ErrNum "9223372036854775808" NumRange = ErrNum num NumRange /\
               (9223372036854775807 = 2 ^ 63 - 1 \/ 9223372036854775807 = - 2 ^ 63))%Z.
Proof.
  split; [vm_compute; reflexivity|].
  apply (Find_error_count sprintf_s (served (suffix0 ++ ":9223372036854775808"))
           (NewFinder []) sum0).
  vm_compute; reflexivity.
Defined.

(** ** The hex encoding splits into key and suffix *)

Lemma str_take_drop n a : str_take n a ++ str_drop n a = a.
Proof.
  revert a; induction n as [|n IH]; intros a; [reflexivity|].
  destruct a as [|c a]; simpl; [reflexivity | rewrite IH; reflexivity].
Qed.

Lemma nat_of_hex_digit n :
  n < 16 -> nat_of_ascii (hex_digit n) = if Nat.ltb n 10 then 48 + n else 55 + n.
Proof.
  intros H. unfold hex_digit.
  destruct (Nat.ltb n 10); apply nat_ascii_embedding; lia.
Qed.

Lemma hex_digit_inj n m : n < 16 -> m < 16 -> hex_digit n = hex_digit m -> n = m.
Proof.
  intros Hn Hm E. apply (f_equal nat_of_ascii) in E.
  rewrite (nat_of_hex_digit n Hn), (nat_of_hex_digit m Hm) in E.
  destruct (Nat.ltb_spec n 10), (Nat.ltb_spec m 10); lia.
Qed.

Lemma hexUpper_inj s1 s2 : hexUpper s1 = hexUpper s2 -> s1 = s2.
Proof.
  revert s2; induction s1 as [|b1 s1 IH]; intros [|b2 s2] H; cbn [hexUpper] in H;
    try discriminate; [reflexivity|].
  assert (E1 : hex_digit (Byte.to_nat b1 / 16) = hex_digit (Byte.to_nat b2 / 16))
    by congruence.
  assert (E2 : hex_digit (Byte.to_nat b1 mod 16) = hex_digit (Byte.to_nat b2 mod 16))
    by congruence.
  assert (E3 : hexUpper s1 = hexUpper s2) by congruence.
  destruct (byte_nibbles b1) as [H11 H12], (byte_nibbles b2) as [H21 H22].
  apply hex_digit_inj in E1; [|exact H11|exact H21].
  apply hex_digit_inj in E2; [|exact H12|exact H22].
  assert (Hb : Byte.to_nat b1 = Byte.to_nat b2).
  { rewrite (Nat.div_mod_eq (Byte.to_nat b1) 16), (Nat.div_mod_eq (Byte.to_nat b2) 16).
    rewrite E1, E2. reflexivity. }
  assert (Hb' : Some b1 = Some b2).
  { rewrite <- (Byte.of_to_nat b1), <- (Byte.of_to_nat b2), Hb. reflexivity. }
  injection Hb' as ->. rewrite (IH s2 E3). reflexivity.
Qed.

(** X7.  The key Find sends and the suffix it looks for are the two halves
    of the hex encoding of the sum, and together they determine the sum:
    two sums with the same key and the same suffix are equal. *)
Theorem hex_key_suffix_injective :
  forall s1 s2 : list byte,
  str_take prefixSize (hexUpper s1) ++ str_drop prefixSize (hexUpper s1) = hexUpper s1 /\
  (str_take prefixSize (hexUpper s1) = str_take prefixSize (hexUpper s2) ->
   str_drop prefixSize (hexUpper s1) = str_drop prefixSize (hexUpper s2) -> s1 = s2).
Proof.
  intros s1 s2. split; [apply str_take_drop|].
  intros Hk Hs. apply hexUpper_inj.
  rewrite <- (str_take_drop prefixSize (hexUpper s1)), Hk, Hs.
  apply str_take_drop.
Qed.

Lemma hex_key_suffix_injective_witness :
  (str_take prefixSize (hexUpper sum0) = str_take prefixSize (hexUpper sum0) ->
   str_drop prefixSize (hexUpper sum0) = str_drop prefixSize (hexUpper sum0) -> sum0 = sum0)
  /\ str_take prefixSize (hexUpper sum0) = str_take prefixSize (hexUpper sum0).
Proof.
  split; [exact (proj2 (hex_key_suffix_injective sum0 sum0)) | reflexivity].
Defined.

Lemma hexUpper_chars s :
  Forall (fun c => 48 <= nat_of_ascii c <= 57 \/ 65 <= nat_of_ascii c <= 70)
         (list_ascii_of_string (hexUpper s)).
Proof.
  revert s.
  assert (K : forall n, n < 16 ->
            48 <= nat_of_ascii (hex_digit n) <= 57 \/ 65 <= nat_of_ascii (hex_digit n) <= 70).
  { intros n Hn. rewrite (nat_of_hex_digit n Hn).
    destruct (Nat.ltb_spec n 10); lia. }
  induction s as [|b s IH]; simpl; [constructor|].
  destruct (byte_nibbles b) as [H1 H2].
  constructor; [apply K; exact H1|]. constructor; [apply K; exact H2|]. exact IH.
Qed.

(** X8.  fmt.Sprintf("%X", sum) writes only the digits 0-9 and the
    uppercase letters A-F. *)
Theorem hexUpper_alphabet :
  forall s : list byte,
  Forall (fun c => 48 <= nat_of_ascii c <= 57 \/ 65 <= nat_of_ascii c <= 70)
         (list_ascii_of_string (hexUpper s)).
Proof. intros s. apply hexUpper_chars. Qed.

(** ** The count as the range API writes it, read back by Find *)

Lemma dec_digit_of_nat k :
  (0 <= k < 10)%Z -> dec_digit (ascii_of_nat (48 + Z.to_nat k)) = Some k.
Proof.
  intros Hk.
  assert (k = 0 \/ k = 1 \/ k = 2 \/ k = 3 \/ k = 4 \/ k = 5 \/ k = 6 \/ k = 7 \/
          k = 8 \/ k = 9)%Z as Hc by lia.
  repeat destruct Hc as [->|Hc]; try reflexivity; subst; reflexivity.
Qed.

Lemma decimal_aux_from fuel : forall n acc,
  (0 <= n < 10 ^ Z.of_nat (S fuel))%Z ->
  decimal_from 0 (decimal_aux fuel n acc) = decimal_from n acc.
Proof.
  induction fuel as [|k IH]; intros n acc Hn.
  - cbn [decimal_aux]. destruct (Z.ltb_spec n 10); [|simpl in Hn; lia].
    cbn [decimal_from]. rewrite dec_digit_of_nat by lia.
    replace (0 * 10 + n)%Z with n by lia. reflexivity.
  - cbn [decimal_aux]. destruct (Z.ltb_spec n 10).
    + cbn [decimal_from]. rewrite dec_digit_of_nat by lia.
      replace (0 * 10 + n)%Z with n by lia. reflexivity.
    + rewrite IH.
      * cbn [decimal_from]. rewrite dec_digit_of_nat by (pose proof (Z.mod_pos_bound n 10); lia).
        replace (n / 10 * 10 + n mod 10)%Z with n
          by (pose proof (Z.div_mod n 10); lia).
        reflexivity.
      * rewrite Nat2Z.inj_succ, Z.pow_succ_r in Hn by lia.
        split; [apply Z.div_pos; lia|].
        apply Z.div_lt_upper_bound; lia.
Qed.

Lemma decimal_aux_length fuel : forall n acc,
  String.length (decimal_aux fuel n acc) <= S fuel + String.length acc.
Proof.
  induction fuel as [|k IH]; intros n acc; cbn [decimal_aux].
  - destruct (n <? 10)%Z; simpl; lia.
  - destruct (n <? 10)%Z; [simpl; lia|].
    specialize (IH (n / 10)%Z (String (ascii_of_nat (48 + Z.to_nat (n mod 10))) acc)).
    change (String.length (String ?c ?a)) with (S (String.length a)) in IH. lia.
Qed.

Lemma decimal_from_digits : forall x m u,
  decimal_from m x = Some u ->
  Forall (fun c => dec_digit c <> None) (list_ascii_of_string x).
Proof.
  induction x as [|c x IH]; intros m u H; simpl; [constructor|].
  simpl in H. destruct (dec_digit c) eqn:E; [|discriminate].
  constructor; [congruence | exact (IH _ _ H)].
Qed.

Lemma decimal_string_value n :
  (0 <= n < 2 ^ 63)%Z -> decimal_from 0 (decimal_string n) = Some n.
Proof.
  intros Hn. unfold decimal_string. rewrite decimal_aux_from; [reflexivity|].
  split; [lia|]. change (10 ^ Z.of_nat 20)%Z with 100000000000000000000%Z. lia.
Qed.

Lemma decimal_string_int64 n :
  (0 <= n < 2 ^ 63)%Z -> decimal_int64 (decimal_string n) = Some n.
Proof.
  intros Hn. pose proof (decimal_string_value n Hn) as Hv.
  pose proof (decimal_from_digits _ _ _ Hv) as Hd.
  destruct (decimal_string n) as [|c r] eqn:E.
  - simpl in Hv. injection Hv as <-. vm_compute in E. discriminate.
  - inversion Hd as [|? ? Hc _]; subst.
    destruct (dec_digit c) as [d|] eqn:Ed; [|contradiction].
    destruct (dec_digit_not_sign _ _ Ed) as [Hp Hm].
    unfold decimal_int64. rewrite Hp, Hm. lazy beta iota. rewrite Hv.
    replace (1 * n)%Z with n by lia.
    destruct (Z.leb_spec (- 2 ^ 63) n), (Z.leb_spec n (2 ^ 63 - 1)); try lia; reflexivity.
Qed.

Lemma digit_not_sep c sep :
  (N_of_ascii sep < 48)%N -> dec_digit c <> None -> Ascii.eqb c sep = false.
Proof.
  intros Hs Hc. destruct (Ascii.eqb_spec c sep) as [->|]; [|reflexivity].
  exfalso. apply Hc. unfold dec_digit.
  destruct (N.leb_spec 48 (N_of_ascii sep)); [lia | reflexivity].
Qed.

Lemma hex_not_sep c sep :
  (48 <= nat_of_ascii c <= 57 \/ 65 <= nat_of_ascii c <= 70) ->
  (nat_of_ascii sep < 48 \/ 57 < nat_of_ascii sep < 65) -> Ascii.eqb c sep = false.
Proof.
  intros Hc Hs. destruct (Ascii.eqb_spec c sep) as [->|]; [lia | reflexivity].
Qed.

Lemma Forall_str_drop (P : ascii -> Prop) n a :
  Forall P (list_ascii_of_string a) -> Forall P (list_ascii_of_string (str_drop n a)).
Proof.
  revert a; induction n as [|n IH]; intros a H; [exact H|].
  destruct a as [|c a]; simpl; [constructor|]. inversion H; subst. apply IH; assumption.
Qed.

(** X10.  A body whose first line is "<suffix>:<n>", with n written in
    decimal as the range API writes counts, gives back n, whether that line
    is ended by "\n", by "\r\n" or by the end of the body: ParseInt reads
    the decimal text of any int64 count n >= 0 as n, and Find returns n
    with a nil error. *)
Theorem Find_decimal_round_trip :
  forall (Sprintf : string -> string -> string) net f s body n rest,
  List.length s = sha1_Size ->
  check_response (net (conn f) (Sprintf (tmpl f) (str_take prefixSize (hexUpper s))))
    = Ok body ->
  (0 <= n < 2 ^ 63)%Z ->
  rest = EmptyString \/ (exists tail, rest = String "010"%char tail) \/
  (exists tail, rest = String "013"%char (String "010"%char tail)) ->
  body = str_drop prefixSize (hexUpper s) ++ String ":"%char (decimal_string n) ++ rest ->
  ParseInt (decimal_string n) = (n, None) /\ run net (Find Sprintf f s) = (n, None).
Proof.
  intros Sprintf net f s body n rest Hs Hb Hn Hrest Hbody.
  pose proof (decimal_string_int64 n Hn) as Hi.
  split; [apply ParseInt_ok; exact Hi|].
  set (sfx := str_drop prefixSize (hexUpper s)) in *.
  set (dec := decimal_string n) in *.
  set (r := sfx ++ String ":"%char dec).
  pose proof (decimal_from_digits _ _ _ (decimal_string_value n Hn)) as Hdig.
  fold dec in Hdig.
  assert (Hhex : Forall (fun c => 48 <= nat_of_ascii c <= 57 \/ 65 <= nat_of_ascii c <= 70)
                   (list_ascii_of_string sfx))
    by (apply Forall_str_drop, hexUpper_chars).
  assert (Hsep : forall sep, nat_of_ascii sep < 48 -> (N_of_ascii sep < 48)%N ->
                   Split r sep = [r] /\ Forall (fun c => c <> sep) (list_ascii_of_string r)).
  { intros sep H1 H2. split.
    - apply Split_single_app.
      + apply Split_no_sep. eapply Forall_impl; [|exact Hhex].
        intros c Hc. apply hex_not_sep; [exact Hc | lia].
      + apply Split_cons_single.
        * destruct (Ascii.eqb_spec ":"%char sep) as [E|]; [|reflexivity].
          rewrite <- E in H1. vm_compute in H1. lia.
        * apply Split_no_sep. eapply Forall_impl; [|exact Hdig].
          intros c Hc. apply digit_not_sep; assumption.
    - unfold r. rewrite list_ascii_of_string_app. apply Forall_app. split.
      + eapply Forall_impl; [|exact Hhex]. intros c Hc ->. lia.
      + simpl. constructor; [intros E; rewrite <- E in H1; vm_compute in H1; lia|].
        eapply Forall_impl; [|exact Hdig]. intros c Hc ->.
        apply Hc. unfold dec_digit.
        destruct (N.leb_spec 48 (N_of_ascii sep)); [lia | reflexivity]. }
  destruct (Hsep "010"%char ltac:(vm_compute; lia) ltac:(vm_compute; reflexivity))
    as [Hnl _].
  destruct (Hsep "013"%char ltac:(vm_compute; lia) ltac:(vm_compute; reflexivity))
    as [_ Hcr].
  assert (Hdrop : dropCR r = r) by (apply dropCR_no_CR; exact Hcr).
  assert (Hrlen : String.length r <= 56).
  { unfold r. rewrite string_length_app.
    unfold sfx. rewrite suffix_length by exact Hs.
    change (String.length (String ":"%char dec)) with (S (String.length dec)).
    pose proof (decimal_aux_length 19 n EmptyString) as L.
    change (decimal_aux 19 n EmptyString) with dec in L.
    change (String.length EmptyString) with 0 in L.
    lia. }
  assert (HR : exists R post, raw_lines body = ([] ++ R :: post)%list /\
                              dropCR R = r /\ too_long R = false).
  { rewrite Hbody.
    replace (sfx ++ String ":"%char dec ++ rest) with (r ++ rest)
      by (unfold r; apply string_app_assoc).
    destruct Hrest as [->|[[tail ->]|[tail ->]]].
    - exists r, []. rewrite string_app_nil_r. split; [|split; [exact Hdrop|]].
      + apply raw_lines_single; [exact Hnl|].
        intros E. apply (f_equal String.length) in E. unfold r in E.
        rewrite string_length_app in E. simpl in E. lia.
      + unfold too_long. apply Nat.leb_gt. unfold MaxScanTokenSize. lia.
    - exists r, (raw_lines tail). split; [apply raw_lines_cons; exact Hnl|].
      split; [exact Hdrop|]. unfold too_long. apply Nat.leb_gt.
      unfold MaxScanTokenSize. lia.
    - exists (r ++ String "013"%char EmptyString), (raw_lines tail).
      rewrite string_app_crlf.
      split; [apply raw_lines_cons, Split_single_app; [exact Hnl | reflexivity]|].
      split; [apply dropCR_CR|]. unfold too_long. apply Nat.leb_gt.
      rewrite string_length_app. simpl (String.length (String _ _)).
      unfold MaxScanTokenSize. lia. }
  destruct HR as [R [post [Hlines [HdR HtR]]]].
  rewrite (Find_match_run Sprintf net f s body [] R post Hs Hb Hlines
             (Forall_nil _) HtR).
  - rewrite HdR. apply parseCount_field; [|exact Hi].
    apply Split_no_sep. eapply Forall_impl; [|exact Hhex].
    intros c Hc. apply hex_not_sep; [exact Hc | vm_compute; lia].
  - rewrite HdR. apply HasPrefix_app.
Qed.

Lemma Find_decimal_round_trip_witness :
  ParseInt (decimal_string 9223372036854775807) = (9223372036854775807%Z, None) /\
  run (served (suffix0 ++ ":9223372036854775807" ++ String "013"%char (String "010"%char "AAAAA:1")))
      (Find sprintf_s (NewFinder []) sum0) = (9223372036854775807%Z, None).
Proof.
  apply (Find_decimal_round_trip sprintf_s
           (served (suffix0 ++ ":9223372036854775807" ++
                      String "013"%char (String "010"%char "AAAAA:1")))
           (NewFinder []) sum0
           (suffix0 ++ ":9223372036854775807" ++ String "013"%char (String "010"%char "AAAAA:1"))
           9223372036854775807%Z (String "013"%char (String "010"%char "AAAAA:1"))).
  - reflexivity.
  - reflexivity.
  - lia.
  - right; right; exists "AAAAA:1"; reflexivity.
  - vm_compute. reflexivity.
Defined.

(** X11.  When the first line beginning with the suffix does not have
    exactly one ':', Find returns count 0 with the parse error naming that
    line (after the '\r' ScanLines drops). *)
Theorem Find_malformed_match :
  forall (Sprintf : string -> string -> string) net f s body pre r post,
  List.length s = sha1_Size ->
  check_response (net (conn f) (Sprintf (tmpl f) (str_take prefixSize (hexUpper s))))
    = Ok body ->
  raw_lines body = (pre ++ r :: post)%list ->
  Forall (fun l => too_long l = false /\
                   HasPrefix (dropCR l) (str_drop prefixSize (hexUpper s)) = false) pre ->
  too_long r = false ->
  HasPrefix (dropCR r) (str_drop prefixSize (hexUpper s)) = true ->
  Count (dropCR r) delim <> 1 ->
  run net (Find Sprintf f s) = (0%Z, Some (ErrParse (dropCR r))).
Proof.
  intros Sprintf net f s body pre r post Hs Hb Hl Hpre Hr Hm Hc.
  rewrite (Find_match_run Sprintf net f s body pre r post Hs Hb Hl Hpre Hr Hm).
  unfold parseCount. pose proof (Split_length (dropCR r) delim) as Hlen.
  destruct (Split (dropCR r) delim) as [|a [|b [|x rest]]]; simpl in Hlen;
    try reflexivity; lia.
Qed.

Lemma Find_malformed_match_witness :
  run (served (String "013"%char (String "010"%char (suffix0 ++ ":1:2"))))
      (Find sprintf_s (NewFinder []) sum0)
    = (0%Z, Some (ErrParse (suffix0 ++ ":1:2"))).
Proof.
  apply (Find_malformed_match sprintf_s
           (served (String "013"%char (String "010"%char (suffix0 ++ ":1:2"))))
           (NewFinder []) sum0 (String "013"%char (String "010"%char (suffix0 ++ ":1:2")))
           [String "013"%char EmptyString] (suffix0 ++ ":1:2") []).
  - reflexivity.
  - reflexivity.
  - vm_compute. reflexivity.
  - constructor; [split; vm_compute; reflexivity | constructor].
  - vm_compute. reflexivity.
  - vm_compute. reflexivity.
  - vm_compute. discriminate.
Defined.
